(** * Markdown code generation for the rich-document tree

    A shallow embedding of [packages/core/src/compiler/codegen/markdown.ts]:
    the node and mark vocabulary of [@/compiler/ast], the dispatcher
    [nodeToMarkdown], its per-variant renderers, and the properties the
    specification states about them; and of the build command of
    [packages/cli/src/commands/build.ts], which writes the generated text
    out and runs LaTeX on it. *)

From Stdlib Require Import String Ascii List ZArith Lia Bool DecimalString.
From Stdlib Require Import Permutation.
Import ListNotations.
Open Scope string_scope.

(** ** JavaScript primitives used by the generator *)

Module JS.

(** The line-feed character and the one-character string ['\n']. *)
Definition lf : ascii := "010"%char.
Definition NL : string := String lf EmptyString.

(** [Array.prototype.join('')]. *)
Definition join (parts : list string) : string := String.concat "" parts.

(** [Array.prototype.reduce(f, init)]: the callback sees the accumulator
    built so far and the next element, left to right. *)
Fixpoint reduce {A B : Type} (f : B -> A -> B) (xs : list A) (acc : B) : B :=
  match xs with
  | [] => acc
  | x :: rest => reduce f rest (f acc x)
  end.

(** Does the whole string consist of line feeds?  (The empty string does.) *)
Fixpoint onlyNewlines (s : string) : bool :=
  match s with
  | EmptyString => true
  | String c rest => Ascii.eqb c lf && onlyNewlines rest
  end.

(** [s.replace(/\n+$/, '')].  The pattern has neither the [g] nor the [m]
    flag, so [$] matches at the end of the input only and the first
    (leftmost) match is the one replaced.  A match starts at the first
    position from which a non-empty run of line feeds reaches the end of the
    input; it extends to the end, and is replaced by the empty string. *)
Fixpoint replaceTrailingNewlines (s : string) : string :=
  match s with
  | EmptyString => EmptyString
  | String c rest =>
      if Ascii.eqb c lf && onlyNewlines rest then EmptyString
      else String c (replaceTrailingNewlines rest)
  end.

(** *** Numbers

    A JavaScript number is a double.  The generator only ever holds
    integer-valued ones (the [start] of an ordered list and what [++] makes
    of it), and these are modelled as the [Z] they denote.  Every integer
    between [-2^53] and [2^53] is a double; beyond that only the multiples of
    a power of two are. *)

Definition two53 : Z := 9007199254740992.

(** The double nearest to an integer, ties going to the even significand
    (the integer is taken to be below the overflow threshold). *)
Definition roundToDouble (z : Z) : Z :=
  let a := Z.abs z in
  if (a <? two53)%Z then z
  else
    let ulp := (2 ^ (Z.log2 a - 52))%Z in
    let q := (a / ulp)%Z in
    let r := (a mod ulp)%Z in
    let q' :=
      if (ulp <? 2 * r)%Z || ((ulp =? 2 * r)%Z && Z.odd q)
      then (q + 1)%Z else q in
    (Z.sgn z * (q' * ulp))%Z.

(** [n++] on a number: the sum is rounded to a double, so from [2^53] on
    the counter may stand still or step by more than one. *)
Definition increment (n : Z) : Z := roundToDouble (n + 1).

(** [i] increments in a row. *)
Fixpoint advance (i : nat) (n : Z) : Z :=
  match i with
  | O => n
  | S i' => advance i' (increment n)
  end.

(** The decimal numeral of an integer, with a minus sign when negative. *)
Definition decimal (n : Z) : string :=
  NilZero.string_of_int (Z.to_int n).

(** [Number::toString]: [s] has [k] digits, [s * 10^(n-k)] reads back as
    [x], and [k] is as small as can be; of several such [s] the one whose
    value is nearest to [x] is taken, the even one on a tie. *)
Definition candidate (x k n s : Z) : option (Z * Z * Z) :=
  let e := (n - k)%Z in
  let v := (s * 10 ^ e)%Z in
  if (0 <=? e)%Z && (10 ^ (k - 1) <=? s)%Z && (s <? 10 ^ k)%Z
     && (roundToDouble v =? x)%Z
  then Some (v, s, n) else None.

Definition pick (x : Z) (a b : option (Z * Z * Z)) : option (Z * Z * Z) :=
  match a, b with
  | None, _ => b
  | _, None => a
  | Some (va, sa, _), Some (vb, _, _) =>
      let da := Z.abs (va - x) in
      let db := Z.abs (vb - x) in
      if (da <? db)%Z then a
      else if (db <? da)%Z then b
      else if Z.even sa then a else b
  end.

(** The candidates with [k] digits: [x] has [D] digits, so [n] is [D], or
    [D + 1] when the digits round up to the next power of ten. *)
Definition shortestAt (x D k : Z) : option (Z * Z * Z) :=
  let around n :=
    let s0 := (x / 10 ^ (n - k))%Z in
    pick x (candidate x k n s0) (candidate x k n (s0 + 1)%Z) in
  pick x (around D) (around (D + 1)%Z).

(** Seventeen digits identify any double; an integer that is no double at
    all keeps its own digits. *)
Fixpoint shortest (x D k : Z) (fuel : nat) : Z * Z * Z :=
  match fuel with
  | O => (x, D, D)
  | S fuel' =>
      match shortestAt x D k with
      | Some (_, s, n) => (s, k, n)
      | None => shortest x D (k + 1)%Z fuel'
      end
  end.

Fixpoint zeros (n : nat) : string :=
  match n with
  | O => EmptyString
  | S n' => String "0" (zeros n')
  end.

(** Up to 21 integer digits are written out, the digits of [s] followed by
    zeros; beyond that the exponent form is used. *)
Definition formatNumber (s k n : Z) : string :=
  if (n <=? 21)%Z then decimal s ++ zeros (Z.to_nat (n - k))
  else
    match decimal s with
    | EmptyString => EmptyString
    | String d EmptyString => String d "e+" ++ decimal (n - 1)
    | String d rest => String d ("." ++ rest) ++ "e+" ++ decimal (n - 1)
    end.

(** [`${n}`] for an integer-valued number.  Between [-2^53] and [2^53]
    every integer is a double of its own and the shortest digits that read
    back as it are its own: the decimal numeral.  Beyond, the digits are
    searched for ([2^60] prints as [1152921504606847000], [10^21] as
    [1e+21]). *)
Definition numberToString (n : Z) : string :=
  if (Z.abs n <=? two53)%Z then decimal n
  else
    let x := Z.abs n in
    let D := Z.of_nat (String.length (decimal x)) in
    let '(s, k, nn) := shortest x D 1 17 in
    (if (n <? 0)%Z then "-" else "") ++ formatNumber s k nn.

End JS.

(** ** The document model ([@/compiler/ast]) *)

(** Attribute bag of a link mark; only [href] is read by the generator. *)
Record LinkAttrs : Type := mkLinkAttrs {
  href : option string;
  class : option string;
  target : option string
}.

(** Inline formatting marks, tagged by [type]. *)
Inductive Mark : Type :=
| BoldMark
| ItalicMark
| LinkMark (attrs : option LinkAttrs).

(** Attribute bag of an ordered list.  [start] is an integer (a number in
    the source; values with a fraction are outside this model). *)
Record OrderedListAttrs : Type := mkOrderedListAttrs {
  start : option Z
}.

#[local] Set Warnings "-register-all".

(** Nodes, tagged by [type].  [content] is a [Fragment]: an optional
    sequence of child nodes ([None] is JavaScript's [undefined]). *)
Inductive Node : Type :=
| BulletListNode (content : option (list Node))
| DocNode (content : option (list Node))
| ListItemNode (content : option (list Node))
| OrderedListNode (attrs : option OrderedListAttrs)
                  (content : option (list Node))
| ParagraphNode (content : option (list Node))
| TextNode (marks : option (list Mark)) (text : string).

Definition Fragment : Type := option (list Node).

(** The induction principle that reaches the nodes inside fragments. *)
Section NodeInduction.

Variable P : Node -> Prop.

Definition FragmentAll (fragment : Fragment) : Prop :=
  match fragment with
  | None => True
  | Some nodes => Forall P nodes
  end.

Hypothesis case_bulletList : forall c, FragmentAll c -> P (BulletListNode c).
Hypothesis case_doc : forall c, FragmentAll c -> P (DocNode c).
Hypothesis case_listItem : forall c, FragmentAll c -> P (ListItemNode c).
Hypothesis case_orderedList :
  forall a c, FragmentAll c -> P (OrderedListNode a c).
Hypothesis case_paragraph : forall c, FragmentAll c -> P (ParagraphNode c).
Hypothesis case_text : forall m t, P (TextNode m t).

Fixpoint Node_nested_ind (node : Node) : P node :=
  let children :=
    fix children (nodes : list Node) : Forall P nodes :=
      match nodes with
      | [] => Forall_nil P
      | n :: rest => Forall_cons n (Node_nested_ind n) (children rest)
      end in
  let fragment (c : Fragment) : FragmentAll c :=
    match c with
    | None => I
    | Some nodes => children nodes
    end in
  match node with
  | BulletListNode c => case_bulletList c (fragment c)
  | DocNode c => case_doc c (fragment c)
  | ListItemNode c => case_listItem c (fragment c)
  | OrderedListNode a c => case_orderedList a c (fragment c)
  | ParagraphNode c => case_paragraph c (fragment c)
  | TextNode m t => case_text m t
  end.

End NodeInduction.

(** ** The generator ([markdown.ts]) *)

(** *** Inline rendering: marks applied to a text run *)

Section Inline.

Context {CodeGenerationContext : Type}.

Definition applyMarkToText (text : string) (mark : Mark)
    (_context : option CodeGenerationContext) : string :=
  match mark with
  | BoldMark => "**" ++ text ++ "**"
  | ItalicMark => "*" ++ text ++ "*"
  | LinkMark attrs =>
      "[" ++ text ++ "]("
          ++ match attrs with
             | Some a => match href a with Some h => h | None => "" end
             | None => ""
             end
          ++ ")"
  end.

Definition textNodeToMarkdown (marks : option (list Mark)) (text : string)
    (context : option CodeGenerationContext) : string :=
  match marks with
  | None => text
  | Some marks =>
      JS.reduce (fun text mark => applyMarkToText text mark context)
                marks text
  end.

End Inline.

(** *** Block rendering *)

(** The renderers are mutually recursive with the dispatcher.  Each is
    written once, against the dispatcher it calls back into; [nodeToMarkdown]
    then closes the recursion. *)
Module Open.
Section Renderers.

Context {CodeGenerationContext : Type}.
Variable nodeToMarkdown : Node -> option CodeGenerationContext -> string.

Definition fragmentToMarkdown (fragment : Fragment)
    (context : option CodeGenerationContext) : string :=
  match fragment with
  | None => ""
  | Some nodes =>
      JS.join (map (fun node => nodeToMarkdown node context) nodes)
  end.

Definition bulletListNodeToMarkdown (content : Fragment)
    (context : option CodeGenerationContext) : string :=
  fragmentToMarkdown content context.

Definition docNodeToMarkdown (content : Fragment)
    (context : option CodeGenerationContext) : string :=
  fragmentToMarkdown content context.

Definition listItemNodeToMarkdown (content : Fragment)
    (context : option CodeGenerationContext) : string :=
  let itemContent := fragmentToMarkdown content context in
  let cleanContent := JS.replaceTrailingNewlines itemContent in
  "- " ++ cleanContent ++ JS.NL.

(** The callback of [node.content.map] in [orderedListNodeToMarkdown],
    with the captured mutable [currentNumber] passed along explicitly:
    the array of per-entry strings, before [join]. *)
Fixpoint orderedListLines (context : option CodeGenerationContext)
    (items : list Node) (currentNumber : Z) : list string :=
  match items with
  | [] => []
  | item :: rest =>
      match item with
      | ListItemNode content =>
          let itemContent := fragmentToMarkdown content context in
          let cleanContent := JS.replaceTrailingNewlines itemContent in
          let result :=
            JS.numberToString currentNumber ++ ". " ++ cleanContent ++ JS.NL in
          result
            :: orderedListLines context rest (JS.increment currentNumber)
      | _ => "" :: orderedListLines context rest currentNumber
      end
  end.

Definition orderedListNodeToMarkdown (attrs : option OrderedListAttrs)
    (content : Fragment) (context : option CodeGenerationContext) : string :=
  let startNumber :=
    match attrs with
    | Some a => match start a with Some n => n | None => 1%Z end
    | None => 1%Z
    end in
  match content with
  | None => ""
  | Some items => JS.join (orderedListLines context items startNumber)
  end.

Definition paragraphNodeToMarkdown (content : Fragment)
    (context : option CodeGenerationContext) : string :=
  match content with
  | None => JS.NL
  | Some [] => JS.NL
  | Some (_ :: _) => fragmentToMarkdown content context ++ JS.NL ++ JS.NL
  end.

(** The [switch (node.type)] of [nodeToMarkdown]. *)
Definition dispatch (node : Node)
    (context : option CodeGenerationContext) : string :=
  match node with
  | BulletListNode content => bulletListNodeToMarkdown content context
  | DocNode content => docNodeToMarkdown content context
  | ListItemNode content => listItemNodeToMarkdown content context
  | OrderedListNode attrs content =>
      orderedListNodeToMarkdown attrs content context
  | ParagraphNode content => paragraphNodeToMarkdown content context
  | TextNode marks text => textNodeToMarkdown marks text context
  end.

End Renderers.
End Open.

Fixpoint nodeToMarkdown {CodeGenerationContext : Type} (node : Node)
    (context : option CodeGenerationContext) {struct node} : string :=
  Open.dispatch nodeToMarkdown node context.

(** The renderers with the recursion closed, under the names of the source. *)
Section Closed.

Context {CodeGenerationContext : Type}.

Definition fragmentToMarkdown (fragment : Fragment)
    (context : option CodeGenerationContext) : string :=
  Open.fragmentToMarkdown nodeToMarkdown fragment context.

Definition bulletListNodeToMarkdown (content : Fragment)
    (context : option CodeGenerationContext) : string :=
  Open.bulletListNodeToMarkdown nodeToMarkdown content context.

Definition docNodeToMarkdown (content : Fragment)
    (context : option CodeGenerationContext) : string :=
  Open.docNodeToMarkdown nodeToMarkdown content context.

Definition listItemNodeToMarkdown (content : Fragment)
    (context : option CodeGenerationContext) : string :=
  Open.listItemNodeToMarkdown nodeToMarkdown content context.

Definition orderedListLines (context : option CodeGenerationContext)
    (items : list Node) (currentNumber : Z) : list string :=
  Open.orderedListLines nodeToMarkdown context items currentNumber.

Definition orderedListNodeToMarkdown (attrs : option OrderedListAttrs)
    (content : Fragment) (context : option CodeGenerationContext) : string :=
  Open.orderedListNodeToMarkdown nodeToMarkdown attrs content context.

Definition paragraphNodeToMarkdown (content : Fragment)
    (context : option CodeGenerationContext) : string :=
  Open.paragraphNodeToMarkdown nodeToMarkdown content context.

End Closed.

(** [class MarkdownCodeGenerator implements CodeGenerator]. *)
Module MarkdownCodeGenerator.

Definition generate {CodeGenerationContext : Type} (node : Node)
    (context : option CodeGenerationContext) : string :=
  nodeToMarkdown node context.

End MarkdownCodeGenerator.

(** ** Vocabulary of the specification *)

(** The last character of a string, if it has one. *)
Fixpoint lastChar (s : string) : option ascii :=
  match s with
  | EmptyString => None
  | String c rest =>
      match rest with
      | EmptyString => Some c
      | String _ _ => lastChar rest
      end
  end.

(** A run of [k] line feeds. *)
Fixpoint newlines (k : nat) : string :=
  match k with
  | O => EmptyString
  | S k' => String JS.lf (newlines k')
  end.


(** [s] ends with one line feed, and with no more than one. *)
Definition EndsWithExactlyOneNewline (s : string) : Prop :=
  exists body, s = body ++ JS.NL /\ lastChar body <> Some JS.lf.

(** [t] occurs in [s] as a contiguous run of characters. *)
Definition Substring (t s : string) : Prop :=
  exists before after, s = before ++ t ++ after.

(** The mark carries no usable [href]: its attribute bag is absent, or the
    bag has no [href]. *)
Definition hasNoHref (m : Mark) : Prop :=
  match m with
  | LinkMark None => True
  | LinkMark (Some a) => href a = None
  | _ => False
  end.

(** Is the entry a [listItem]? *)
Definition isListItem (node : Node) : bool :=
  match node with
  | ListItemNode _ => true
  | _ => false
  end.

(** A list variant skips the entries of its content that are not
    [listItem]s: dropping them from the content does not change what is
    rendered.  [variant] builds the list node from its content. *)
Definition SkipsNonListItems {C : Type} (variant : Fragment -> Node) : Prop :=
  forall (items : list Node) (context : option C),
    nodeToMarkdown (variant (Some items)) context =
    nodeToMarkdown (variant (Some (filter isListItem items))) context.

(** A node renders alike under two contexts; for a [listItem], so does its
    fragment, which is what an [orderedList] reads. *)
Definition RendersAlike {C1 C2 : Type} (c1 : option C1) (c2 : option C2)
    (node : Node) : Prop :=
  nodeToMarkdown node c1 = nodeToMarkdown node c2
  /\ match node with
     | ListItemNode content =>
         fragmentToMarkdown content c1 = fragmentToMarkdown content c2
     | _ => True
     end.

(** The fragments of the [listItem] entries of a list's content, in
    document order. *)
Fixpoint listItemContents (items : list Node) : list Fragment :=
  match items with
  | [] => []
  | ListItemNode content :: rest => content :: listItemContents rest
  | _ :: rest => listItemContents rest
  end.

(** [map] with the position of each element, counted from [from]. *)
Definition mapiFrom {A B : Type} (from : nat) (f : nat -> A -> B)
    (xs : list A) : list B :=
  map (fun ix => f (fst ix) (snd ix)) (combine (seq from (length xs)) xs).

(** The first ordinal of an ordered list: [attrs.start] when present,
    1 otherwise. *)
Definition startOf (attrs : option OrderedListAttrs) : Z :=
  match attrs with
  | Some a => match start a with Some n => n | None => 1%Z end
  | None => 1%Z
  end.

(** ** Vocabulary for further properties of the generator *)

(** The [href] a link mark ends up with: the empty string when the
    attribute bag or its [href] is absent. *)
Definition hrefOf (attrs : option LinkAttrs) : string :=
  match attrs with
  | Some a => match href a with Some h => h | None => "" end
  | None => ""
  end.

(** What a mark puts in front of, and behind, the string it wraps. *)
Definition markOpen (m : Mark) : string :=
  match m with
  | BoldMark => "**"
  | ItalicMark => "*"
  | LinkMark _ => "["
  end.

Definition markClose (m : Mark) : string :=
  match m with
  | BoldMark => "**"
  | ItalicMark => "*"
  | LinkMark attrs => "](" ++ hrefOf attrs ++ ")"
  end.

(** The number of characters a mark adds. *)
Definition markOverhead (m : Mark) : nat :=
  String.length (markOpen m) + String.length (markClose m).

(** A paragraph with absent or empty content. *)
Definition isEmptyParagraph (node : Node) : bool :=
  match node with
  | ParagraphNode None => true
  | ParagraphNode (Some []) => true
  | _ => false
  end.

(** How many entries of a list's content are [listItem]s. *)
Definition countListItems (items : list Node) : nat :=
  List.length (filter isListItem items).

(** The counter of an ordered list counts exactly: it starts at [from], not
    below [-2^53], and the [count] ordinals [from], [from + 1], ... it hands
    out do not go beyond [2^53]. *)
Definition CountsExactly (from : Z) (count : nat) : Prop :=
  (- JS.two53 <= from)%Z /\ (from + Z.of_nat count <= JS.two53 + 1)%Z.

(** The shape of a list that ends in a [listItem]: something that is not
    empty and does not end in a line feed, then one line feed. *)
Definition OneLineFeedAfterBody (s : string) : Prop :=
  exists body,
    body <> "" /\ lastChar body <> Some JS.lf /\ s = body ++ JS.NL.

(** ** The build command ([packages/cli/src/commands/build.ts]) *)

Module Build.

(** *** JavaScript string primitives *)

(** [s.endsWith(suffix)]. *)
Fixpoint endsWith (s suffix : string) : bool :=
  String.eqb s suffix
  || match s with
     | EmptyString => false
     | String _ rest => endsWith rest suffix
     end.

(** Does the input, from the current position on, begin with [literal]? *)
Fixpoint beginsWith (literal s : string) : bool :=
  match literal with
  | EmptyString => true
  | String a literal' =>
      match s with
      | EmptyString => false
      | String b s' => Ascii.eqb a b && beginsWith literal' s'
      end
  end.

(** The input with its first [n] characters removed. *)
Fixpoint dropChars (n : nat) (s : string) : string :=
  match n with
  | O => s
  | S n' =>
      match s with
      | EmptyString => EmptyString
      | String _ rest => dropChars n' rest
      end
  end.

(** [s.replace(re, replacement)] for a regular expression without the [g]
    flag and a replacement without [$]: the leftmost match is replaced, the
    rest is kept.  [matchAt rest] is the length of the match of [re] that
    starts where [rest] starts ([rest] runs to the end of the input), if
    there is one. *)
Fixpoint replaceFirst (matchAt : string -> option nat) (replacement : string)
    (s : string) : string :=
  match matchAt s with
  | Some len => replacement ++ dropChars len s
  | None =>
      match s with
      | EmptyString => EmptyString
      | String c rest => String c (replaceFirst matchAt replacement rest)
      end
  end.

(** [/\.yaml|\.yml|\.json$/]: alternation binds loosest, so [$] belongs to
    the last alternative only; [.yaml] and [.yml] match anywhere. *)
Definition sourceExtension (rest : string) : option nat :=
  if beginsWith ".yaml" rest then Some 5
  else if beginsWith ".yml" rest then Some 4
  else if String.eqb rest ".json" then Some 5
  else None.

(** [/\.tex$/]. *)
Definition texExtension (rest : string) : option nat :=
  if String.eqb rest ".tex" then Some 4 else None.

(** Truthiness of an optional string: [undefined] and [''] are falsy. *)
Definition truthy (s : option string) : bool :=
  match s with
  | Some (String _ _) => true
  | _ => false
  end.

(** *** Collaborators outside the repository *)

(** The functions of [node:path] the command uses.  [resolve] reads the
    working directory of the process, fixed for the duration of a call. *)
Record PathModule : Type := mkPathModule {
  path_extname : string -> string;
  path_basename : string -> string;
  path_join : string -> string -> string;
  path_resolve : string -> string;
  path_dirname : string -> string
}.

(** [YAMLResumeError], by error code and payload. *)
Inductive YAMLResumeError : Type :=
| INVALID_EXTNAME (extname : string)
| LATEX_NOT_FOUND
| FILE_WRITE_ERROR (path : string)
| INVALID_FORMAT (format : string)
| LATEX_COMPILE_ERROR (error : string).

(** What a synchronous function without effects does: return or throw. *)
Inductive Result (A : Type) : Type :=
| Returns (a : A)
| Throws (e : YAMLResumeError).

Arguments Returns {A} a.
Arguments Throws {A} e.

(** *** Output paths *)

Definition inferOutput (path : PathModule) (resumePath format : string)
    (outputDir : option string) : Result string :=
  let extname := path_extname path resumePath in
  if endsWith resumePath ".yaml"
     || endsWith resumePath ".yml"
     || endsWith resumePath ".json"
  then
    let outputExt := if String.eqb format "markdown" then ".md" else ".tex" in
    let baseName :=
      path_basename path (replaceFirst sourceExtension outputExt resumePath) in
    match outputDir with
    | Some (String c dir) => Returns (path_join path (String c dir) baseName)
    | _ => Returns (replaceFirst sourceExtension outputExt resumePath)
    end
  else Throws (INVALID_EXTNAME extname).

Definition getPdfPath (texPath : string) : string :=
  replaceFirst texExtension ".pdf" texPath.

(** *** Effects of the command *)

(** The core helpers the command formats its debug output with. *)
Record CoreHelpers : Type := mkCoreHelpers {
  joinNonEmptyString : list string -> string;
  toCodeBlock : option string -> string
}.

Inductive LaTeXEnvironment : Type := xelatex | tectonic.

Record LaTeXCommand : Type := mkLaTeXCommand {
  command : string;
  args : list string;
  cwd : string
}.

(** What [execa] resolves with, and what it rejects with. *)
Record ExecaResult : Type := mkExecaResult {
  stdout : string
}.

Record ExecaError : Type := mkExecaError {
  error_stdout : option string;
  error_stderr : option string;
  error_message : string
}.

Inductive ConsolaLevel : Type :=
| consola_success
| consola_start
| consola_debug.

(** The options object of [buildResume]; every field may be missing. *)
Record BuildOptions : Type := mkBuildOptions {
  pdf : option bool;
  validate : option bool;
  output : option string;
  format : option string
}.

Definition defaultOptions : BuildOptions :=
  mkBuildOptions (Some true) (Some true) None (Some "latex").

(** The format [buildResume] works with: [options.format || 'latex']. *)
Definition chosenFormat (options : BuildOptions) : string :=
  match format options with
  | Some (String c f) => String c f
  | _ => "latex"
  end.

Section Effects.

(** The parsed resume is opaque to the command, and so is whatever a
    collaborator throws. *)
Context {Resume Exn : Type}.

(** A thrown value: an error of the repository, or one from elsewhere. *)
Inductive Thrown : Type :=
| OwnError (e : YAMLResumeError)
| ForeignError (x : Exn).

(** A call that leaves the command, with what came back.  For the
    synchronous calls [None] on the right of [which.sync], and [Some] on the
    right of [mkdirSync] and [writeFileSync], stand for a throw; [consola]
    is taken not to throw.  [EvRender] is
    [getResumeRenderer(resume, undefined, format).render()]. *)
Inductive Event : Type :=
| EvWhichSync (cmd : string) (found : option string)
| EvReadResume (resumePath : string) (validating : option bool)
               (r : Thrown + Resume)
| EvExistsSync (dir : string) (present : bool)
| EvMkdirSync (dir : string) (r : option Thrown)
| EvRender (resume : Resume) (fmt : string) (r : Thrown + string)
| EvWriteFileSync (file data : string) (r : option Thrown)
| EvExeca (cmd : string) (arguments : list string) (dir : string)
          (r : ExecaError + ExecaResult)
| EvConsola (level : ConsolaLevel) (msg : string).

(** Programs: what the command does, as a tree of calls whose branches are
    the possible answers. *)
Inductive Prog (R : Type) : Type :=
| Return (r : R)
| Throw (e : Thrown)
| WhichSync (cmd : string) (k : option string -> Prog R)
| ReadResume (resumePath : string) (validating : option bool)
             (k : Thrown + Resume -> Prog R)
| ExistsSync (dir : string) (k : bool -> Prog R)
| MkdirSync (dir : string) (k : option Thrown -> Prog R)
| Render (resume : Resume) (fmt : string) (k : Thrown + string -> Prog R)
| WriteFileSync (file data : string) (k : option Thrown -> Prog R)
| Execa (cmd : string) (arguments : list string) (dir : string)
        (k : ExecaError + ExecaResult -> Prog R)
| Consola (level : ConsolaLevel) (msg : string) (k : Prog R).

Arguments Return {R} r.
Arguments Throw {R} e.
Arguments WhichSync {R} cmd k.
Arguments ReadResume {R} resumePath validating k.
Arguments ExistsSync {R} dir k.
Arguments MkdirSync {R} dir k.
Arguments Render {R} resume fmt k.
Arguments WriteFileSync {R} file data k.
Arguments Execa {R} cmd arguments dir k.
Arguments Consola {R} level msg k.

(** Sequencing: a throw on the left skips what follows. *)
Fixpoint bind {A B : Type} (p : Prog A) (f : A -> Prog B) : Prog B :=
  match p with
  | Return a => f a
  | Throw e => Throw e
  | WhichSync cmd k => WhichSync cmd (fun r => bind (k r) f)
  | ReadResume resumePath validating k =>
      ReadResume resumePath validating (fun r => bind (k r) f)
  | ExistsSync dir k => ExistsSync dir (fun r => bind (k r) f)
  | MkdirSync dir k => MkdirSync dir (fun r => bind (k r) f)
  | Render resume fmt k => Render resume fmt (fun r => bind (k r) f)
  | WriteFileSync file data k =>
      WriteFileSync file data (fun r => bind (k r) f)
  | Execa cmd arguments dir k =>
      Execa cmd arguments dir (fun r => bind (k r) f)
  | Consola level msg k => Consola level msg (bind k f)
  end.

(** A function without effects, called from a program. *)
Definition call {A : Type} (r : Result A) : Prog A :=
  match r with
  | Returns a => Return a
  | Throws e => Throw (OwnError e)
  end.

(** The world around the command: how each call is answered, given the
    events so far (oldest first). *)
Record Environment : Type := mkEnvironment {
  env_whichSync : list Event -> string -> option string;
  env_readResume : list Event -> string -> option bool -> Thrown + Resume;
  env_existsSync : list Event -> string -> bool;
  env_mkdirSync : list Event -> string -> option Thrown;
  env_render : list Event -> Resume -> string -> Thrown + string;
  env_writeFileSync : list Event -> string -> string -> option Thrown;
  env_execa : list Event -> string -> list string -> string ->
              ExecaError + ExecaResult
}.

(** How a program ends. *)
Inductive Outcome (R : Type) : Type :=
| Returned (r : R)
| Threw (e : Thrown).

Arguments Returned {R} r.
Arguments Threw {R} e.

(** Running a program in an environment: the events, oldest first
    (following those of [history]), and the outcome. *)
Fixpoint run {R : Type} (env : Environment) (history : list Event)
    (p : Prog R) : list Event * Outcome R :=
  match p with
  | Return r => (history, Returned r)
  | Throw e => (history, Threw e)
  | WhichSync cmd k =>
      let r := env_whichSync env history cmd in
      run env (history ++ [EvWhichSync cmd r]) (k r)
  | ReadResume resumePath validating k =>
      let r := env_readResume env history resumePath validating in
      run env (history ++ [EvReadResume resumePath validating r]) (k r)
  | ExistsSync dir k =>
      let r := env_existsSync env history dir in
      run env (history ++ [EvExistsSync dir r]) (k r)
  | MkdirSync dir k =>
      let r := env_mkdirSync env history dir in
      run env (history ++ [EvMkdirSync dir r]) (k r)
  | Render resume fmt k =>
      let r := env_render env history resume fmt in
      run env (history ++ [EvRender resume fmt r]) (k r)
  | WriteFileSync file data k =>
      let r := env_writeFileSync env history file data in
      run env (history ++ [EvWriteFileSync file data r]) (k r)
  | Execa cmd arguments dir k =>
      let r := env_execa env history cmd arguments dir in
      run env (history ++ [EvExeca cmd arguments dir r]) (k r)
  | Consola level msg k =>
      run env (history ++ [EvConsola level msg]) k
  end.

Variable path : PathModule.
Variable core : CoreHelpers.

(** [!!which.sync(command)] inside [try], [false] in the [catch]. *)
Definition isCommandAvailable (cmd : string) : Prog bool :=
  WhichSync cmd (fun found => Return (truthy found)).

Definition inferLaTeXEnvironment : Prog LaTeXEnvironment :=
  bind (isCommandAvailable "xelatex") (fun available =>
  if available then Return xelatex
  else
    bind (isCommandAvailable "tectonic") (fun available =>
    if available then Return tectonic
    else Throw (OwnError LATEX_NOT_FOUND))).

Definition inferLaTeXCommand (resumePath : string)
    (outputDir : option string) : Prog LaTeXCommand :=
  bind inferLaTeXEnvironment (fun environment =>
  bind (call (inferOutput path resumePath "latex" outputDir)) (fun texFile =>
  let command_args :=
    match environment with
    | xelatex => ("xelatex", ["-halt-on-error"; path_basename path texFile])
    | tectonic => ("tectonic", [path_basename path texFile])
    end in
  let cwd :=
    match outputDir with
    | Some (String c dir) => path_resolve path (String c dir)
    | _ => path_dirname path (path_resolve path texFile)
    end in
  Return (mkLaTeXCommand (fst command_args) (snd command_args) cwd))).

Definition generateTeX (resumePath : string) (resume : Resume)
    (fmt : string) (outputDir : option string) : Prog unit :=
  bind (call (inferOutput path resumePath fmt outputDir)) (fun outputFile =>
  bind
    match outputDir with
    | Some (String c dir) =>
        ExistsSync (String c dir) (fun present =>
        if present then Return tt
        else
          MkdirSync (String c dir) (fun r =>
          match r with
          | None => Return tt
          | Some e => Throw e
          end))
    | _ => Return tt
    end (fun _ =>
  Render resume fmt (fun r =>
  match r with
  | inl e => Throw e
  | inr rendered =>
      WriteFileSync outputFile rendered (fun r =>
      match r with
      | None => Return tt
      | Some _error => Throw (OwnError (FILE_WRITE_ERROR outputFile))
      end)
  end))).

Definition buildResume (resumePath : string)
    (options : option BuildOptions) : Prog unit :=
  let options :=
    match options with
    | Some given => given
    | None => defaultOptions
    end in
  let fmt := chosenFormat options in
  if negb (String.eqb fmt "latex") && negb (String.eqb fmt "markdown")
  then Throw (OwnError (INVALID_FORMAT fmt))
  else
    ReadResume resumePath (validate options) (fun r =>
    match r with
    | inl e => Throw e
    | inr resume =>
        bind (generateTeX resumePath resume fmt (output options)) (fun _ =>
        if String.eqb fmt "markdown"
        then Consola consola_success
               "Generated resume markdown file successfully." (Return tt)
        else
          match pdf options with
          | Some true =>
              bind (inferLaTeXCommand resumePath (output options)) (fun c =>
              Consola consola_start
                ("Generating resume PDF file with command: `"
                   ++ command c ++ " " ++ String.concat " " (args c)
                   ++ "`...")
                (Execa (command c) (args c) (cwd c) (fun r =>
                 match r with
                 | inr result =>
                     Consola consola_success
                       "Generated resume PDF file successfully."
                       (Consola consola_debug
                          (joinNonEmptyString core
                             ["stdout: ";
                              toCodeBlock core (Some (stdout result))])
                          (Return tt))
                 | inl error =>
                     Consola consola_debug
                       (joinNonEmptyString core
                          ["stdout: ";
                           toCodeBlock core (error_stdout error)])
                       (Consola consola_debug
                          (joinNonEmptyString core
                             ["stderr: ";
                              toCodeBlock core (error_stderr error)])
                          (Throw
                             (OwnError
                                (LATEX_COMPILE_ERROR (error_message error)))))
                 end)))
          | _ =>
              Consola consola_success
                "Generated resume TeX file successfully." (Return tt)
          end)
    end).

End Effects.

Arguments Return {Resume Exn R} r.
Arguments Throw {Resume Exn R} e.
Arguments WhichSync {Resume Exn R} cmd k.
Arguments ReadResume {Resume Exn R} resumePath validating k.
Arguments ExistsSync {Resume Exn R} dir k.
Arguments MkdirSync {Resume Exn R} dir k.
Arguments Render {Resume Exn R} resume fmt k.
Arguments WriteFileSync {Resume Exn R} file data k.
Arguments Execa {Resume Exn R} cmd arguments dir k.
Arguments Consola {Resume Exn R} level msg k.
Arguments Returned {Exn R} r.
Arguments Threw {Exn R} e.

(** *** Vocabulary for the properties of the effects *)

(** Looking a LaTeX engine up, or running one. *)
Definition isLaTeXEvent {Resume Exn : Type} (ev : @Event Resume Exn) : bool :=
  match ev with
  | EvWhichSync _ _ => true
  | EvExeca _ _ _ _ => true
  | _ => false
  end.

(** Where the LaTeX engine is run: the output directory when one is given,
    the directory of the TeX file otherwise. *)
Definition workingDirectory (path : PathModule) (outputDir : option string)
    (texFile : string) : string :=
  match outputDir with
  | Some (String c dir) => path_resolve path (String c dir)
  | _ => path_dirname path (path_resolve path texFile)
  end.

(** An environment for examples: nothing is installed, nothing exists,
    every call that can fail fails, with [fault] as what is thrown. *)
Definition barren {Exn : Type} (fault : Exn) : @Environment unit Exn :=
  mkEnvironment
    (fun _ _ => None)
    (fun _ _ _ => inr tt)
    (fun _ _ => false)
    (fun _ _ => Some (ForeignError fault))
    (fun _ _ _ => inr "rendered")
    (fun _ _ _ => Some (ForeignError fault))
    (fun _ _ _ _ => inl (mkExecaError None None "failed")).

(** An environment for examples where [xelatex] is installed, no
    directory exists yet, reading, rendering, making directories and writing
    succeed, and [execa] answers as given. *)
Definition obligingWith (answer : ExecaError + ExecaResult)
    : @Environment unit string :=
  mkEnvironment
    (fun _ cmd => if String.eqb cmd "xelatex" then Some "/usr/bin/xelatex"
                  else None)
    (fun _ _ _ => inr tt)
    (fun _ _ => false)
    (fun _ _ => None)
    (fun _ _ _ => inr "rendered")
    (fun _ _ _ => None)
    (fun _ _ _ _ => answer).

Definition obliging : @Environment unit string :=
  obligingWith (inr (mkExecaResult "ok")).

Definition sampleCore : CoreHelpers :=
  mkCoreHelpers (String.concat "")
                (fun code => match code with Some c => c | None => "" end).

(** A stand-in for [node:path] to evaluate examples with: the POSIX
    flavour, for plain paths (no [.] or [..] segments, no doubled or trailing
    slashes), in the working directory [/work]. *)

(** What is before and after the last [sep], if there is one. *)
Fixpoint splitLast (sep : ascii) (s : string) : option (string * string) :=
  match s with
  | EmptyString => None
  | String c rest =>
      match splitLast sep rest with
      | Some (before, after) => Some (String c before, after)
      | None => if Ascii.eqb c sep then Some (EmptyString, rest) else None
      end
  end.

Definition sample_basename (p : string) : string :=
  match splitLast "/" p with
  | Some (_, base) => base
  | None => p
  end.

Definition sample_dirname (p : string) : string :=
  match splitLast "/" p with
  | Some (EmptyString, _) => "/"
  | Some (dir, _) => dir
  | None => "."
  end.

Definition sample_extname (p : string) : string :=
  match splitLast "." (sample_basename p) with
  | Some (EmptyString, _) => ""
  | Some (_, ext) => "." ++ ext
  | None => ""
  end.

Definition sample_resolve (p : string) : string :=
  match p with
  | String "/" _ => p
  | _ => "/work/" ++ p
  end.

Definition samplePath : PathModule :=
  mkPathModule sample_extname sample_basename
               (fun dir file => dir ++ "/" ++ file)
               sample_resolve sample_dirname.

(** *** Vocabulary for the properties of output paths *)

(** The extensions of a source file the command accepts. *)
Definition sourceExtensions : list string := [".yaml"; ".yml"; ".json"].

(** The path ends with one of the accepted extensions. *)
Definition Accepted (resumePath : string) : Prop :=
  exists stem ext, In ext sourceExtensions /\ resumePath = stem ++ ext.

(** [literal] occurs in [s] only, if at all, at its very end. *)
Definition OnlyAtEnd (literal s : string) : Prop :=
  forall a b, s = a ++ literal ++ b -> b = "".

(** The same, decided: does [literal] start somewhere in [s] other than
    where it would end [s]? *)
Fixpoint occursBeforeEnd (literal s : string) : bool :=
  match s with
  | EmptyString => false
  | String c rest =>
      (beginsWith literal s && negb (String.eqb s literal))
      || occursBeforeEnd literal rest
  end.

(** Does the character occur in the string? *)
Fixpoint containsChar (c : ascii) (s : string) : bool :=
  match s with
  | EmptyString => false
  | String d rest => Ascii.eqb c d || containsChar c rest
  end.

End Build.

(** ** Fixtures of [markdown.test.ts] *)

Module Fixtures.

Definition para (s : string) : Node :=
  ParagraphNode (Some [TextNode None s]).

Definition innerListItem : Node := ListItemNode (Some [para "Nested item"]).
Definition innerList : Node := BulletListNode (Some [innerListItem]).
Definition outerListItem : Node :=
  ListItemNode (Some [para "Outer item"; innerList]).

Definition itemListItem : Node := ListItemNode (Some [para "Item"]).
Definition startAtFive : Node :=
  OrderedListNode (Some (mkOrderedListAttrs (Some 5%Z)))
                  (Some [itemListItem; itemListItem]).

(** No context is passed in the tests; any context type will do. *)
Definition noContext : option unit := None.

End Fixtures.

(** ** Strings: basic facts *)

Lemma sapp_assoc (a b c : string) : (a ++ b) ++ c = a ++ (b ++ c).
Proof. induction a as [|x a IH]; simpl; [reflexivity | now rewrite IH]. Qed.

Lemma sapp_nil_r (a : string) : a ++ "" = a.
Proof. induction a as [|x a IH]; simpl; [reflexivity | now rewrite IH]. Qed.

Lemma join_nil : JS.join [] = "".
Proof. reflexivity. Qed.

Lemma join_cons (x : string) (xs : list string) :
  JS.join (x :: xs) = x ++ JS.join xs.
Proof.
  unfold JS.join. destruct xs as [|y ys]; simpl.
  - now rewrite sapp_nil_r.
  - reflexivity.
Qed.

Lemma join_app (xs ys : list string) :
  JS.join (xs ++ ys) = JS.join xs ++ JS.join ys.
Proof.
  induction xs as [|x xs IH]; [reflexivity|].
  change ((x :: xs) ++ ys)%list with (x :: (xs ++ ys))%list.
  now rewrite !join_cons, IH, sapp_assoc.
Qed.

Lemma reduce_fold_left {A B : Type} (f : B -> A -> B) (xs : list A) (acc : B) :
  JS.reduce f xs acc = fold_left f xs acc.
Proof. revert acc. induction xs as [|x xs IH]; intros acc; simpl; auto. Qed.

Lemma reduce_snoc {A B : Type} (f : B -> A -> B) (xs : list A) (x : A) (acc : B) :
  JS.reduce f (xs ++ [x]) acc = f (JS.reduce f xs acc) x.
Proof. revert acc. induction xs as [|y xs IH]; intros acc; simpl; auto. Qed.

Lemma lastChar_app (a b : string) :
  lastChar (a ++ b) =
  match b with EmptyString => lastChar a | String _ _ => lastChar b end.
Proof.
  induction a as [|x a IH].
  - simpl. destruct b; reflexivity.
  - destruct b as [|y b].
    + now rewrite sapp_nil_r.
    + change (String x a ++ String y b) with (String x (a ++ String y b)).
      simpl lastChar at 1. rewrite IH.
      destruct a; reflexivity.
Qed.

Lemma lastChar_snoc (a : string) (c : ascii) :
  lastChar (a ++ String c "") = Some c.
Proof. now rewrite lastChar_app. Qed.

(** ** The trailing-newline replacement *)

Lemma onlyNewlines_cons (c : ascii) (s : string) :
  JS.onlyNewlines (String c s) = Ascii.eqb c JS.lf && JS.onlyNewlines s.
Proof. reflexivity. Qed.

Lemma replace_cons (c : ascii) (s : string) :
  JS.replaceTrailingNewlines (String c s) =
  if Ascii.eqb c JS.lf && JS.onlyNewlines s then ""
  else String c (JS.replaceTrailingNewlines s).
Proof. reflexivity. Qed.

Lemma newlines_S (k : nat) : newlines (S k) = String JS.lf (newlines k).
Proof. reflexivity. Qed.

Lemma onlyNewlines_newlines (k : nat) : JS.onlyNewlines (newlines k) = true.
Proof.
  induction k as [|k IH]; [reflexivity|].
  now rewrite newlines_S, onlyNewlines_cons, IH, Ascii.eqb_refl.
Qed.

Lemma onlyNewlines_inv (s : string) :
  JS.onlyNewlines s = true -> s = newlines (String.length s).
Proof.
  induction s as [|c s IH]; [reflexivity|].
  rewrite onlyNewlines_cons. intros H.
  apply andb_true_iff in H as [Hc Hs].
  apply Ascii.eqb_eq in Hc. subst c.
  cbn [String.length]. now rewrite newlines_S, <- IH.
Qed.

Lemma lastChar_newlines (k : nat) : lastChar (newlines (S k)) = Some JS.lf.
Proof.
  induction k as [|k IH]; [reflexivity|].
  rewrite newlines_S. rewrite newlines_S in IH.
  cbn [lastChar]. exact IH.
Qed.

Lemma replace_empty_inv (s : string) :
  JS.replaceTrailingNewlines s = "" -> JS.onlyNewlines s = true.
Proof.
  destruct s as [|c s]; [reflexivity|].
  rewrite replace_cons, onlyNewlines_cons.
  destruct (Ascii.eqb c JS.lf && JS.onlyNewlines s); [reflexivity|].
  discriminate.
Qed.

Lemma replace_decomp (s : string) :
  exists k, s = JS.replaceTrailingNewlines s ++ newlines k.
Proof.
  induction s as [|c s [k IH]].
  - exists 0. reflexivity.
  - rewrite replace_cons.
    destruct (Ascii.eqb c JS.lf && JS.onlyNewlines s) eqn:E.
    + exists (S (String.length s)).
      apply andb_true_iff in E as [Hc Hs].
      apply Ascii.eqb_eq in Hc. subst c.
      cbn [append]. now rewrite newlines_S, <- (onlyNewlines_inv s Hs).
    + exists k. cbn [append]. now rewrite <- IH.
Qed.

Lemma replace_lastChar (s : string) :
  lastChar (JS.replaceTrailingNewlines s) <> Some JS.lf.
Proof.
  induction s as [|c s IH]; [discriminate|].
  rewrite replace_cons.
  destruct (Ascii.eqb c JS.lf && JS.onlyNewlines s) eqn:E; [discriminate|].
  cbn [lastChar]. destruct (JS.replaceTrailingNewlines s) as [|d r] eqn:R.
  - apply replace_empty_inv in R. rewrite R, andb_true_r in E.
    apply Ascii.eqb_neq in E. congruence.
  - exact IH.
Qed.


Lemma onlyNewlines_app_l (p q : string) :
  JS.onlyNewlines (p ++ q) = true -> JS.onlyNewlines p = true.
Proof.
  induction p as [|c p IH]; [reflexivity|].
  cbn [append]. rewrite !onlyNewlines_cons. intros H.
  apply andb_true_iff in H as [Hc Hp]. now rewrite Hc, IH.
Qed.

(** What [Stripped] describes is unique: the replacement is the only way to
    cut a run of line feeds and be left with no trailing one. *)
Lemma replace_app_newlines (p : string) (k : nat) :
  lastChar p <> Some JS.lf ->
  JS.replaceTrailingNewlines (p ++ newlines k) = p.
Proof.
  induction p as [|c p IH]; intros Hp.
  - cbn [append]. destruct k as [|k]; [reflexivity|].
    now rewrite newlines_S, replace_cons, Ascii.eqb_refl, onlyNewlines_newlines.
  - cbn [append]. rewrite replace_cons.
    destruct (Ascii.eqb c JS.lf && JS.onlyNewlines (p ++ newlines k)) eqn:E.
    + exfalso. apply andb_true_iff in E as [Hc Hs].
      apply Ascii.eqb_eq in Hc. subst c.
      apply onlyNewlines_app_l, onlyNewlines_inv in Hs.
      apply Hp. rewrite Hs, <- newlines_S. apply lastChar_newlines.
    + f_equal. apply IH. destruct p as [|d p]; [discriminate|].
      exact Hp.
Qed.


(** ** The number model, evaluated *)

Example increment_is_exact_up_to_two_to_the_53 :
  JS.increment 5 = 6%Z
  /\ JS.increment (-1) = 0%Z
  /\ JS.increment (- JS.two53) = (- JS.two53 + 1)%Z
  /\ JS.increment (JS.two53 - 1) = JS.two53.
Proof. repeat split. Qed.

Example increment_rounds_from_two_to_the_53_on :
  JS.increment JS.two53 = JS.two53
  /\ JS.increment (JS.two53 + 2) = (JS.two53 + 4)%Z
  /\ JS.increment (JS.two53 + 4) = (JS.two53 + 4)%Z
  /\ JS.increment (2 ^ 60) = (2 ^ 60)%Z.
Proof. vm_compute. repeat split. Qed.

Example numberToString_examples :
  map JS.numberToString
      [0; 5; -3; 120; 9007199254740991; 9007199254740992;
       9007199254740994; 2 ^ 60; - 2 ^ 60; 2 ^ 64;
       123456789012345683968; 10 ^ 21; 2 ^ 70;
       99999999999999991611392; 2 ^ 1024 - 2 ^ 971]%Z
  = ["0"; "5"; "-3"; "120"; "9007199254740991"; "9007199254740992";
     "9007199254740994"; "1152921504606847000"; "-1152921504606847000";
     "18446744073709552000"; "123456789012345680000"; "1e+21";
     "1.1805916207174113e+21"; "1e+23"; "1.7976931348623157e+308"].
Proof. vm_compute. reflexivity. Qed.

(** ** The expectations of [markdown.test.ts], evaluated *)

Example replace_keeps_inner_newlines :
  JS.replaceTrailingNewlines ("a" ++ JS.NL ++ JS.NL ++ "b" ++ JS.NL ++ JS.NL)
  = "a" ++ JS.NL ++ JS.NL ++ "b".
Proof. reflexivity. Qed.

Example replace_of_newlines_only :
  JS.replaceTrailingNewlines (JS.NL ++ JS.NL) = "".
Proof. reflexivity. Qed.

Example bullet_list_one_empty_item :
  nodeToMarkdown
    (BulletListNode (Some [ListItemNode (Some [ParagraphNode (Some [])])]))
    Fixtures.noContext
  = "- " ++ JS.NL.
Proof. reflexivity. Qed.

Example bullet_list_two_items :
  nodeToMarkdown
    (BulletListNode (Some [ListItemNode (Some [Fixtures.para "Hello, "]);
                           ListItemNode (Some [Fixtures.para "world!"])]))
    Fixtures.noContext
  = "- Hello, " ++ JS.NL ++ "- world!" ++ JS.NL.
Proof. reflexivity. Qed.

Example bullet_list_nested :
  nodeToMarkdown (BulletListNode (Some [Fixtures.outerListItem]))
                 Fixtures.noContext
  = "- Outer item" ++ JS.NL ++ JS.NL ++ "- Nested item" ++ JS.NL.
Proof. reflexivity. Qed.

Example doc_two_paragraphs :
  nodeToMarkdown
    (DocNode (Some [Fixtures.para "Hello, "; Fixtures.para "world!"]))
    Fixtures.noContext
  = "Hello, " ++ JS.NL ++ JS.NL ++ "world!" ++ JS.NL ++ JS.NL.
Proof. reflexivity. Qed.

Example ordered_list_two_items :
  nodeToMarkdown
    (OrderedListNode None
       (Some [ListItemNode (Some [Fixtures.para "Hello, "]);
              ListItemNode (Some [Fixtures.para "world!"])]))
    Fixtures.noContext
  = "1. Hello, " ++ JS.NL ++ "2. world!" ++ JS.NL.
Proof. reflexivity. Qed.

Example paragraph_with_marks :
  nodeToMarkdown
    (ParagraphNode
       (Some [TextNode (Some [BoldMark; ItalicMark]) "Hello";
              TextNode None ", ";
              TextNode (Some [BoldMark]) "world!"]))
    Fixtures.noContext
  = "***Hello***, **world!**" ++ JS.NL ++ JS.NL.
Proof. reflexivity. Qed.

Example text_link_then_bold :
  nodeToMarkdown
    (TextNode
       (Some [LinkMark (Some (mkLinkAttrs (Some "https://example.com")
                                          (Some "") (Some "")));
              BoldMark])
       "Hello, world!")
    Fixtures.noContext
  = "**[Hello, world!](https://example.com)**".
Proof. reflexivity. Qed.

Example text_link_missing_href :
  nodeToMarkdown (TextNode (Some [LinkMark None]) "Hello, world!")
                 Fixtures.noContext
  = "[Hello, world!]()".
Proof. reflexivity. Qed.

(** ** The dispatcher, one equation per variant *)

Lemma nodeToMarkdown_eq {C : Type} (node : Node) (context : option C) :
  nodeToMarkdown node context =
  match node with
  | BulletListNode content => bulletListNodeToMarkdown content context
  | DocNode content => docNodeToMarkdown content context
  | ListItemNode content => listItemNodeToMarkdown content context
  | OrderedListNode attrs content =>
      orderedListNodeToMarkdown attrs content context
  | ParagraphNode content => paragraphNodeToMarkdown content context
  | TextNode marks text => textNodeToMarkdown marks text context
  end.
Proof. destruct node; reflexivity. Qed.

Lemma fragmentToMarkdown_Some {C : Type} (nodes : list Node) (context : option C) :
  fragmentToMarkdown (Some nodes) context =
  JS.join (map (fun node => nodeToMarkdown node context) nodes).
Proof. reflexivity. Qed.

Lemma listItem_eq {C : Type} (content : Fragment) (context : option C) :
  nodeToMarkdown (ListItemNode content) context =
  "- " ++ JS.replaceTrailingNewlines (fragmentToMarkdown content context)
       ++ JS.NL.
Proof. reflexivity. Qed.

Lemma orderedListLines_listItem {C : Type} (context : option C)
    (content : Fragment) (rest : list Node) (n : Z) :
  orderedListLines context (ListItemNode content :: rest) n =
  (JS.numberToString n ++ ". "
     ++ JS.replaceTrailingNewlines (fragmentToMarkdown content context)
     ++ JS.NL)
  :: orderedListLines context rest (JS.increment n).
Proof. reflexivity. Qed.

Lemma orderedListLines_other {C : Type} (context : option C)
    (item : Node) (rest : list Node) (n : Z) :
  isListItem item = false ->
  orderedListLines context (item :: rest) n =
  "" :: orderedListLines context rest n.
Proof. destruct item; simpl; intros H; (discriminate || reflexivity). Qed.

Lemma orderedList_eq {C : Type} (attrs : option OrderedListAttrs)
    (items : list Node) (context : option C) :
  nodeToMarkdown (OrderedListNode attrs (Some items)) context =
  JS.join (orderedListLines context items (startOf attrs)).
Proof. reflexivity. Qed.

(** ** Text nodes and marks *)

Lemma textNode_marks {C : Type} (marks : list Mark) (t : string)
    (context : option C) :
  nodeToMarkdown (TextNode (Some marks) t) context =
  JS.reduce (fun s m => applyMarkToText s m context) marks t.
Proof. reflexivity. Qed.

Lemma textNode_snoc {C : Type} (marks : list Mark) (m : Mark) (t : string)
    (context : option C) :
  nodeToMarkdown (TextNode (Some (marks ++ [m])%list) t) context =
  applyMarkToText (nodeToMarkdown (TextNode (Some marks) t) context) m context.
Proof.
  rewrite !textNode_marks.
  exact (reduce_snoc (fun s m => applyMarkToText s m context) marks m t).
Qed.

Lemma textNode_app {C : Type} (before after : list Mark) (t : string)
    (context : option C) :
  nodeToMarkdown (TextNode (Some (before ++ after)%list) t) context =
  nodeToMarkdown
    (TextNode (Some after) (nodeToMarkdown (TextNode (Some before) t) context))
    context.
Proof.
  rewrite !textNode_marks. revert t.
  induction before as [|m before IH]; intros t; [reflexivity|].
  apply IH.
Qed.

Lemma Substring_refl (t : string) : Substring t t.
Proof. exists "", "". now rewrite sapp_nil_r. Qed.

Lemma Substring_wrap (t s a b : string) :
  Substring t s -> Substring t (a ++ s ++ b).
Proof.
  intros [p [q ->]]. exists (a ++ p), (q ++ b).
  now rewrite !sapp_assoc.
Qed.

Lemma Substring_trans (t s u : string) :
  Substring t s -> Substring s u -> Substring t u.
Proof. intros Hts [p [q ->]]. now apply Substring_wrap. Qed.

(** Every mark surrounds the current string; none rewrites it. *)
Lemma applyMarkToText_wraps {C : Type} (m : Mark) (context : option C) :
  exists a b, forall s, applyMarkToText s m context = a ++ s ++ b.
Proof.
  destruct m as [| |attrs].
  - now exists "**", "**".
  - now exists "*", "*".
  - exists "[".
    exists ("](" ++ match attrs with
                    | Some a => match href a with Some h => h | None => "" end
                    | None => ""
                    end ++ ")").
    reflexivity.
Qed.

Lemma textNode_Substring {C : Type} (marks : list Mark) (t : string)
    (context : option C) :
  Substring t (nodeToMarkdown (TextNode (Some marks) t) context).
Proof.
  induction marks as [|m marks IH] using rev_ind.
  - apply Substring_refl.
  - rewrite textNode_snoc.
    destruct (applyMarkToText_wraps m context) as [a [b ->]].
    now apply Substring_wrap.
Qed.

(** Claim C1.  A text node without a mark sequence renders as its literal
    text.  With a mark sequence it renders as the left fold of mark
    application over the sequence, starting from the literal: appending a mark
    wraps what the marks before it produced, not the literal.  Bold wraps in
    two asterisks, italic in one, and a link in brackets followed by the
    parenthesised [href], which is the empty string when the attribute bag or
    the [href] is absent. *)
Theorem text_node_is_left_fold_of_marks :
  forall (C : Type) (context : option C) (t : string),
    nodeToMarkdown (TextNode None t) context = t
    /\ (forall marks,
          nodeToMarkdown (TextNode (Some marks) t) context =
          fold_left (fun s m => applyMarkToText s m context) marks t)
    /\ (forall marks m,
          nodeToMarkdown (TextNode (Some (marks ++ [m])%list) t) context =
          applyMarkToText
            (nodeToMarkdown (TextNode (Some marks) t) context) m context)
    /\ (forall s, applyMarkToText s BoldMark context = "**" ++ s ++ "**")
    /\ (forall s, applyMarkToText s ItalicMark context = "*" ++ s ++ "*")
    /\ (forall s h cls tgt,
          applyMarkToText s (LinkMark (Some (mkLinkAttrs (Some h) cls tgt)))
                          context
          = "[" ++ s ++ "](" ++ h ++ ")")
    /\ (forall s cls tgt,
          applyMarkToText s (LinkMark (Some (mkLinkAttrs None cls tgt)))
                          context
          = "[" ++ s ++ "](" ++ "" ++ ")")
    /\ (forall s,
          applyMarkToText s (LinkMark None) context
          = "[" ++ s ++ "](" ++ "" ++ ")").
Proof.
  intros C context t. repeat split; try reflexivity.
  - intros marks. rewrite textNode_marks. apply reduce_fold_left.
  - intros marks m. apply textNode_snoc.
Qed.

Lemma applyMarkToText_noHref {C : Type} (s : string) (m : Mark)
    (context : option C) :
  hasNoHref m -> applyMarkToText s m context = "[" ++ s ++ "]()".
Proof.
  destruct m as [| |[a|]]; simpl; intros H; try contradiction.
  - now rewrite H.
  - reflexivity.
Qed.

(** Claim C7.  A link mark whose attribute bag or [href] is absent wraps
    the current string (what the marks before it produced) as a link with an
    empty destination.  The generator is a total function, so nothing is
    raised; and the link construct is still there, as written, whatever marks
    follow. *)
Theorem link_without_href_has_empty_destination :
  forall (C : Type) (context : option C) (t : string)
         (before after : list Mark) (m : Mark),
    hasNoHref m ->
    let current := nodeToMarkdown (TextNode (Some before) t) context in
    nodeToMarkdown (TextNode (Some (before ++ [m])%list) t) context
      = "[" ++ current ++ "]()"
    /\ Substring ("[" ++ current ++ "]()")
         (nodeToMarkdown (TextNode (Some (before ++ m :: after)%list) t) context).
Proof.
  intros C context t before after m Hm current.
  assert (E : nodeToMarkdown (TextNode (Some (before ++ [m])%list) t) context
              = "[" ++ current ++ "]()").
  { rewrite textNode_snoc. now apply applyMarkToText_noHref. }
  split; [exact E|].
  replace (before ++ m :: after)%list with ((before ++ [m]) ++ after)%list
    by (now rewrite <- app_assoc).
  rewrite textNode_app, E. apply textNode_Substring.
Qed.

Lemma link_without_href_witness :
  hasNoHref (LinkMark None)
  /\ nodeToMarkdown
       (TextNode (Some ([BoldMark] ++ [LinkMark None])%list) "Hello, world!")
       Fixtures.noContext
     = "[**Hello, world!**]()".
Proof.
  split; [exact I|].
  exact (proj1 (link_without_href_has_empty_destination
                  unit Fixtures.noContext "Hello, world!"
                  [BoldMark] [] (LinkMark None) I)).
Defined.

(** Claim C9.  Bold then italic, and italic then bold, both render a
    literal between three asterisks on each side. *)
Theorem bold_italic_either_order_three_asterisks :
  forall (C : Type) (context : option C) (t : string),
    nodeToMarkdown (TextNode (Some [BoldMark; ItalicMark]) t) context
      = "***" ++ t ++ "***"
    /\ nodeToMarkdown (TextNode (Some [ItalicMark; BoldMark]) t) context
      = "***" ++ t ++ "***".
Proof.
  intros C context t. split; rewrite textNode_marks; simpl;
    now rewrite ?sapp_assoc.
Qed.

(** Claim C10.  Whatever the marks, the literal text of a text node occurs
    unchanged, as one contiguous run, in what is rendered: nothing is escaped.
    An [href] is copied as it is between the parentheses of the link, and a
    literal or an [href] made of Markdown delimiters comes out verbatim. *)
Theorem literal_text_passes_through_verbatim :
  forall (C : Type) (context : option C),
    (forall marks t, Substring t (nodeToMarkdown (TextNode marks t) context))
    /\ (forall s h cls tgt,
          applyMarkToText s (LinkMark (Some (mkLinkAttrs (Some h) cls tgt)))
                          context
          = "[" ++ s ++ "](" ++ h ++ ")")
    /\ nodeToMarkdown
         (TextNode (Some [BoldMark;
                          LinkMark (Some (mkLinkAttrs (Some "a)b") None None));
                          ItalicMark])
                   "*_[)")
         context
       = "*[***_[)**](a)b)*".
Proof.
  intros C context. repeat split.
  intros [marks|] t.
  - apply textNode_Substring.
  - apply Substring_refl.
Qed.

(** ** Empty and absent fragments *)

(** Claim C4.  A [doc], a [bulletList] and an [orderedList] (whatever its
    attributes) render as the empty string, and a [paragraph] as one line
    feed, when the fragment is absent and when it is empty alike. *)
Theorem empty_and_absent_fragments_render_alike :
  forall (C : Type) (context : option C) (attrs : option OrderedListAttrs),
    (nodeToMarkdown (DocNode None) context = ""
     /\ nodeToMarkdown (DocNode (Some [])) context = "")
    /\ (nodeToMarkdown (BulletListNode None) context = ""
        /\ nodeToMarkdown (BulletListNode (Some [])) context = "")
    /\ (nodeToMarkdown (OrderedListNode attrs None) context = ""
        /\ nodeToMarkdown (OrderedListNode attrs (Some [])) context = "")
    /\ (nodeToMarkdown (ParagraphNode None) context = JS.NL
        /\ nodeToMarkdown (ParagraphNode (Some [])) context = JS.NL).
Proof. intros C context attrs. repeat split. Qed.

(** ** List items *)

(** The counter and its numeral where the integers are exact. *)
Lemma increment_exact (n : Z) :
  (- JS.two53 <= n)%Z -> (n + 1 <= JS.two53)%Z -> JS.increment n = (n + 1)%Z.
Proof.
  intros Hlo Hhi. unfold JS.increment, JS.roundToDouble. cbv zeta.
  destruct (Z.ltb_spec (Z.abs (n + 1)) JS.two53) as [_|Hbig]; [reflexivity|].
  assert (E : (n + 1 = JS.two53)%Z) by (unfold JS.two53 in *; lia).
  rewrite E. reflexivity.
Qed.

Lemma numberToString_exact (n : Z) :
  (Z.abs n <= JS.two53)%Z -> JS.numberToString n = JS.decimal n.
Proof.
  intros H. unfold JS.numberToString.
  destruct (Z.leb_spec (Z.abs n) JS.two53) as [_|Hbig]; [reflexivity|lia].
Qed.



(** A string that does not end in a line feed still does not after it is
    put behind a prefix that does not end in one either. *)
Lemma lastChar_prefix (p s : string) :
  lastChar p <> Some JS.lf -> lastChar s <> Some JS.lf ->
  lastChar (p ++ s) <> Some JS.lf.
Proof. intros Hp Hs. rewrite lastChar_app. now destruct s. Qed.

Lemma marker_line_ends_once (marker content : string) :
  lastChar marker <> Some JS.lf ->
  EndsWithExactlyOneNewline
    (marker ++ JS.replaceTrailingNewlines content ++ JS.NL).
Proof.
  intros Hm. exists (marker ++ JS.replaceTrailingNewlines content). split.
  - now rewrite sapp_assoc.
  - apply lastChar_prefix; [exact Hm | apply replace_lastChar].
Qed.

Lemma ordinal_marker_lastChar (n : Z) :
  lastChar (JS.numberToString n ++ ". ") <> Some JS.lf.
Proof. rewrite lastChar_app. discriminate. Qed.

Lemma orderedListLines_nth {C : Type} (context : option C) (items : list Node) :
  forall (n : Z) (i : nat) (content : Fragment),
    nth_error items i = Some (ListItemNode content) ->
    exists (k : Z) (line : string),
      nth_error (orderedListLines context items n) i = Some line
      /\ line = JS.numberToString k ++ ". "
                ++ JS.replaceTrailingNewlines
                     (fragmentToMarkdown content context)
                ++ JS.NL.
Proof.
  induction items as [|item items IH]; intros n i content Hi.
  - destruct i; discriminate.
  - destruct i as [|i].
    + injection Hi as ->. rewrite orderedListLines_listItem.
      eexists _, _. split; reflexivity.
    + cbn [nth_error] in Hi.
      destruct (isListItem item) eqn:E.
      * destruct item; try discriminate.
        rewrite orderedListLines_listItem. cbn [nth_error]. now apply IH.
      * rewrite (orderedListLines_other _ _ _ _ E). cbn [nth_error].
        now apply IH.
Qed.

(** Claim C5.  A [listItem] renders to a string that ends with exactly one
    line feed, whatever its fragment renders to; and so does the line an
    [orderedList] emits for each [listItem] entry of its content. *)
Theorem list_item_ends_with_exactly_one_newline :
  forall (C : Type) (context : option C),
    (forall content,
        EndsWithExactlyOneNewline
          (nodeToMarkdown (ListItemNode content) context))
    /\ (forall items n i content,
          nth_error items i = Some (ListItemNode content) ->
          exists line,
            nth_error (orderedListLines context items n) i = Some line
            /\ EndsWithExactlyOneNewline line).
Proof.
  intros C context. split.
  - intros content. rewrite listItem_eq.
    apply marker_line_ends_once. discriminate.
  - intros items n i content Hi.
    destruct (orderedListLines_nth context items n i content Hi)
      as [k [line [Hline ->]]].
    exists (JS.numberToString k ++ ". "
            ++ JS.replaceTrailingNewlines (fragmentToMarkdown content context)
            ++ JS.NL).
    split; [exact Hline|].
    rewrite <- sapp_assoc.
    apply marker_line_ends_once, ordinal_marker_lastChar.
Qed.

Lemma list_item_ends_with_exactly_one_newline_witness :
  EndsWithExactlyOneNewline
    (nodeToMarkdown Fixtures.outerListItem Fixtures.noContext)
  /\ exists line,
       nth_error
         (orderedListLines Fixtures.noContext
            [Fixtures.para "x"; Fixtures.outerListItem] 5) 1 = Some line
       /\ EndsWithExactlyOneNewline line.
Proof.
  destruct (list_item_ends_with_exactly_one_newline unit Fixtures.noContext)
    as [Hitem Hlines].
  split.
  - apply Hitem.
  - apply (Hlines [Fixtures.para "x"; Fixtures.outerListItem] 5%Z 1
                  (Some [Fixtures.para "Outer item"; Fixtures.innerList])).
    reflexivity.
Defined.

(** ** Ordered lists *)

Lemma mapiFrom_cons {A B : Type} (from : nat) (f : nat -> A -> B)
    (x : A) (xs : list A) :
  mapiFrom from f (x :: xs) = f from x :: mapiFrom (S from) f xs.
Proof. reflexivity. Qed.

Lemma listItemContents_other (item : Node) (rest : list Node) :
  isListItem item = false ->
  listItemContents (item :: rest) = listItemContents rest.
Proof. destruct item; simpl; intros H; (discriminate || reflexivity). Qed.

Lemma mapiFrom_shift {A B : Type} (f : nat -> A -> B) (xs : list A) :
  forall from : nat,
    mapiFrom (S from) f xs = mapiFrom from (fun i => f (S i)) xs.
Proof.
  induction xs as [|x xs IH]; intros from; [reflexivity|].
  now rewrite !mapiFrom_cons, IH.
Qed.

Lemma mapiFrom_ext {A B : Type} (f g : nat -> A -> B) (xs : list A) :
  forall from : nat,
    (forall i x, from <= i < from + List.length xs -> f i x = g i x) ->
    mapiFrom from f xs = mapiFrom from g xs.
Proof.
  induction xs as [|x xs IH]; intros from H; [reflexivity|].
  rewrite !mapiFrom_cons. f_equal.
  - apply H. cbn [List.length]. lia.
  - apply IH. intros i y Hi. apply H. cbn [List.length]. lia.
Qed.

Lemma listItemContents_length (items : list Node) :
  List.length (listItemContents items) = countListItems items.
Proof.
  unfold countListItems.
  induction items as [|item items IH]; [reflexivity|].
  destruct item; cbn [listItemContents filter isListItem List.length];
    now rewrite ?IH.
Qed.

Lemma advance_exact (i : nat) :
  forall n : Z,
    (- JS.two53 <= n)%Z -> (n + Z.of_nat i <= JS.two53)%Z ->
    JS.advance i n = (n + Z.of_nat i)%Z.
Proof.
  induction i as [|i IH]; intros n Hlo Hhi; cbn [JS.advance].
  - lia.
  - rewrite increment_exact by lia. rewrite IH by lia. lia.
Qed.

(** The running counter of the [map] callback, read off positions: the
    [i]-th [listItem] entry gets the counter after [i] increments, and the
    other entries add nothing to the joined text. *)
Lemma orderedListLines_advance {C : Type} (context : option C)
    (items : list Node) :
  forall n : Z,
    JS.join (orderedListLines context items n) =
    JS.join
      (mapiFrom 0
         (fun i content =>
            JS.numberToString (JS.advance i n) ++ ". "
              ++ JS.replaceTrailingNewlines
                   (fragmentToMarkdown content context)
              ++ JS.NL)
         (listItemContents items)).
Proof.
  induction items as [|item items IH]; intros n; [reflexivity|].
  destruct (isListItem item) eqn:E.
  - destruct item; try discriminate.
    rewrite orderedListLines_listItem. cbn [listItemContents].
    rewrite mapiFrom_cons, !join_cons. f_equal.
    rewrite mapiFrom_shift. apply IH.
  - rewrite (orderedListLines_other _ _ _ _ E), join_cons.
    rewrite (listItemContents_other _ _ E). apply IH.
Qed.

Lemma orderedList_counts_exactly {C : Type} (context : option C)
    (attrs : option OrderedListAttrs) (items : list Node) :
  CountsExactly (startOf attrs) (countListItems items) ->
  nodeToMarkdown (OrderedListNode attrs (Some items)) context =
  JS.join
    (mapiFrom 0
       (fun i content =>
          JS.decimal (startOf attrs + Z.of_nat i) ++ ". "
            ++ JS.replaceTrailingNewlines (fragmentToMarkdown content context)
            ++ JS.NL)
       (listItemContents items)).
Proof.
  intros [Hlo Hhi]. rewrite orderedList_eq, orderedListLines_advance.
  f_equal. apply mapiFrom_ext. intros i content Hi.
  rewrite listItemContents_length in Hi.
  rewrite advance_exact by lia.
  rewrite numberToString_exact by (unfold JS.two53 in *; lia).
  reflexivity.
Qed.

(** Claim C3, as stated, fails where the counter of the source stops being
    exact: it is a double, and from [2^53] on [++] no longer adds one.  With
    start [2^53 - 1] the third item is numbered [2^53] again, not
    [2^53 + 1]. *)
Lemma ordered_list_counter_stands_still_at_two_to_the_53 :
  let node :=
    OrderedListNode (Some (mkOrderedListAttrs (Some 9007199254740991%Z)))
      (Some [Fixtures.itemListItem; Fixtures.itemListItem;
             Fixtures.itemListItem]) in
  nodeToMarkdown node Fixtures.noContext
    = "9007199254740991. Item" ++ JS.NL
      ++ "9007199254740992. Item" ++ JS.NL
      ++ "9007199254740992. Item" ++ JS.NL
  /\ JS.decimal (9007199254740991 + Z.of_nat 2) = "9007199254740993"
  /\ ~ (forall (attrs : option OrderedListAttrs) (items : list Node),
          nodeToMarkdown (OrderedListNode attrs (Some items))
                         Fixtures.noContext
          = JS.join
              (mapiFrom 0
                 (fun i content =>
                    JS.decimal (startOf attrs + Z.of_nat i) ++ ". "
                      ++ JS.replaceTrailingNewlines
                           (fragmentToMarkdown content Fixtures.noContext)
                      ++ JS.NL)
                 (listItemContents items))).
Proof.
  cbv zeta. split; [vm_compute; reflexivity|]. split; [reflexivity|].
  intros H.
  specialize (H (Some (mkOrderedListAttrs (Some 9007199254740991%Z)))
                [Fixtures.itemListItem; Fixtures.itemListItem;
                 Fixtures.itemListItem]).
  vm_compute in H. discriminate H.
Qed.

(** Claim C3, amended.  An [orderedList] with content whose counter counts
    exactly (start not below [-2^53], and no ordinal handed out beyond
    [2^53]) renders as the lines of its [listItem] entries, in document
    order, the [i]-th of them (from 0) prefixed with the decimal numeral of
    [start + i] and [". "]; entries of other variants do not advance the
    ordinal.  [start] is [attrs.start] when present and 1 otherwise, and is
    used as given, be it zero or negative.  Two ["Item"] items with start 5
    render as lines 5 and 6. *)
Theorem ordered_list_numbers_items_from_start :
  forall (C : Type) (context : option C),
    (forall attrs items,
        CountsExactly (startOf attrs) (countListItems items) ->
        nodeToMarkdown (OrderedListNode attrs (Some items)) context =
        JS.join
          (mapiFrom 0
             (fun i content =>
                JS.decimal (startOf attrs + Z.of_nat i) ++ ". "
                  ++ JS.replaceTrailingNewlines
                       (fragmentToMarkdown content context)
                  ++ JS.NL)
             (listItemContents items)))
    /\ (startOf None = 1%Z
        /\ startOf (Some (mkOrderedListAttrs None)) = 1%Z
        /\ forall n, startOf (Some (mkOrderedListAttrs (Some n))) = n)
    /\ nodeToMarkdown Fixtures.startAtFive Fixtures.noContext
       = "5. Item" ++ JS.NL ++ "6. Item" ++ JS.NL
    /\ nodeToMarkdown
         (OrderedListNode (Some (mkOrderedListAttrs (Some (-1)%Z)))
            (Some [Fixtures.itemListItem; Fixtures.para "skipped";
                   Fixtures.outerListItem; Fixtures.itemListItem]))
         Fixtures.noContext
       = "-1. Item" ++ JS.NL
         ++ "0. Outer item" ++ JS.NL ++ JS.NL ++ "- Nested item" ++ JS.NL
         ++ "1. Item" ++ JS.NL.
Proof.
  intros C context.
  split; [|split; [|split]].
  - intros attrs items H. now apply orderedList_counts_exactly.
  - repeat split.
  - reflexivity.
  - reflexivity.
Qed.

Lemma ordered_list_numbers_items_from_start_witness :
  CountsExactly 9007199254740991 2
  /\ nodeToMarkdown
       (OrderedListNode (Some (mkOrderedListAttrs (Some 9007199254740991%Z)))
          (Some [Fixtures.itemListItem; Fixtures.para "skipped";
                 Fixtures.itemListItem]))
       Fixtures.noContext
     = "9007199254740991. Item" ++ JS.NL ++ "9007199254740992. Item" ++ JS.NL.
Proof.
  assert (H : CountsExactly 9007199254740991 2).
  { unfold CountsExactly, JS.two53. lia. }
  split; [exact H|].
  rewrite (proj1 (ordered_list_numbers_items_from_start
                    unit Fixtures.noContext)
             (Some (mkOrderedListAttrs (Some 9007199254740991%Z)))
             [Fixtures.itemListItem; Fixtures.para "skipped";
              Fixtures.itemListItem] H).
  reflexivity.
Defined.

(** ** Entries of a list that are not list items *)

Lemma orderedListLines_filter {C : Type} (context : option C)
    (items : list Node) :
  forall n : Z,
    JS.join (orderedListLines context items n) =
    JS.join (orderedListLines context (filter isListItem items) n).
Proof.
  induction items as [|item items IH]; intros n; [reflexivity|].
  cbn [filter]. destruct (isListItem item) eqn:E.
  - destruct item; try discriminate.
    rewrite !orderedListLines_listItem, !join_cons. now rewrite IH.
  - rewrite (orderedListLines_other _ _ _ _ E), join_cons. apply IH.
Qed.

Lemma orderedListLines_skipped {C : Type} (context : option C)
    (items : list Node) :
  forall (n : Z) (i : nat) (item : Node),
    nth_error items i = Some item ->
    isListItem item = false ->
    nth_error (orderedListLines context items n) i = Some "".
Proof.
  induction items as [|x items IH]; intros n i item Hi Hitem.
  - destruct i; discriminate.
  - destruct i as [|i].
    + injection Hi as ->. now rewrite (orderedListLines_other _ _ _ _ Hitem).
    + cbn [nth_error] in Hi. destruct (isListItem x) eqn:E.
      * destruct x; try discriminate.
        rewrite orderedListLines_listItem. cbn [nth_error]. now apply (IH _ _ item).
      * rewrite (orderedListLines_other _ _ _ _ E). cbn [nth_error].
        now apply (IH _ _ item).
Qed.

(** Claim C6, as stated, fails for [bulletList]: a paragraph placed directly
    in a bullet list is rendered, not skipped. *)
Lemma bullet_list_renders_entries_that_are_not_list_items :
  nodeToMarkdown (BulletListNode (Some [Fixtures.para "x"])) Fixtures.noContext
    = "x" ++ JS.NL ++ JS.NL
  /\ ~ @SkipsNonListItems unit BulletListNode.
Proof.
  split; [reflexivity|].
  intros H. specialize (H [Fixtures.para "x"] Fixtures.noContext).
  discriminate H.
Qed.

(** Claim C6, amended.  In an [orderedList], an entry that is not a
    [listItem] yields the empty string in its place, so dropping such entries
    leaves the rendering unchanged.  A [bulletList] hands every entry of its
    content, of whatever variant, to the dispatcher and joins the results.
    Both are total functions: nothing is raised. *)
Theorem ordered_list_skips_and_bullet_list_dispatches_entries :
  forall (C : Type) (context : option C),
    (forall attrs, @SkipsNonListItems C (OrderedListNode attrs))
    /\ (forall items n i item,
          nth_error items i = Some item ->
          isListItem item = false ->
          nth_error (orderedListLines context items n) i = Some "")
    /\ (forall items,
          nodeToMarkdown (BulletListNode (Some items)) context =
          JS.join (map (fun item => nodeToMarkdown item context) items)).
Proof.
  intros C context. repeat split.
  - intros attrs items ctx. rewrite !orderedList_eq.
    apply orderedListLines_filter.
  - intros items n i item. apply orderedListLines_skipped.
Qed.

Lemma ordered_list_skips_witness :
  nth_error [Fixtures.itemListItem; Fixtures.para "x"] 1
    = Some (Fixtures.para "x")
  /\ isListItem (Fixtures.para "x") = false
  /\ nth_error
       (orderedListLines Fixtures.noContext
          [Fixtures.itemListItem; Fixtures.para "x"] 1) 1
     = Some "".
Proof.
  split; [reflexivity|]. split; [reflexivity|].
  apply (proj1 (proj2 (ordered_list_skips_and_bullet_list_dispatches_entries
                         unit Fixtures.noContext))
           [Fixtures.itemListItem; Fixtures.para "x"] 1%Z 1
           (Fixtures.para "x"));
    reflexivity.
Defined.

(** ** The context is not consulted *)

Section ContextIrrelevance.

Context {C1 C2 : Type}.
Variable c1 : option C1.
Variable c2 : option C2.

Lemma applyMarkToText_context (s : string) (m : Mark) :
  applyMarkToText s m c1 = applyMarkToText s m c2.
Proof. reflexivity. Qed.

Lemma textNode_context (marks : option (list Mark)) (t : string) :
  nodeToMarkdown (TextNode marks t) c1 = nodeToMarkdown (TextNode marks t) c2.
Proof.
  destruct marks as [marks|]; [|reflexivity].
  rewrite !textNode_marks. revert t.
  induction marks as [|m marks IH]; intros t; [reflexivity|].
  cbn [JS.reduce]. rewrite applyMarkToText_context. apply IH.
Qed.

Lemma fragment_context (content : Fragment) :
  FragmentAll (RendersAlike c1 c2) content ->
  fragmentToMarkdown content c1 = fragmentToMarkdown content c2.
Proof.
  destruct content as [nodes|]; [|reflexivity].
  cbn [FragmentAll]. intros H. rewrite !fragmentToMarkdown_Some.
  induction H as [|node nodes [Hnode _] _ IH]; [reflexivity|].
  cbn [map]. now rewrite !join_cons, Hnode, IH.
Qed.

Lemma orderedListLines_context (items : list Node) :
  Forall (RendersAlike c1 c2) items ->
  forall n, orderedListLines c1 items n = orderedListLines c2 items n.
Proof.
  induction 1 as [|item items [_ Hitem] _ IH]; intros n; [reflexivity|].
  destruct (isListItem item) eqn:E.
  - destruct item; try discriminate.
    now rewrite !orderedListLines_listItem, Hitem, IH.
  - now rewrite !(orderedListLines_other _ _ _ _ E), IH.
Qed.

Lemma nodeToMarkdown_context (node : Node) : RendersAlike c1 c2 node.
Proof.
  apply (Node_nested_ind (RendersAlike c1 c2)); clear node.
  - intros c H. split; [|exact I]. apply (fragment_context c H).
  - intros c H. split; [|exact I]. apply (fragment_context c H).
  - intros c H. split; [|apply (fragment_context c H)].
    now rewrite !listItem_eq, (fragment_context c H).
  - intros a [items|] H; (split; [|exact I]); [|reflexivity].
    rewrite !orderedList_eq. now rewrite (orderedListLines_context items H).
  - intros c H. split; [|exact I].
    pose proof (fragment_context c H) as E.
    destruct c as [[|x xs]|]; try reflexivity.
    rewrite !nodeToMarkdown_eq. unfold paragraphNodeToMarkdown.
    cbn [Open.paragraphNodeToMarkdown].
    unfold fragmentToMarkdown in E. now rewrite E.
  - intros m t. split; [apply textNode_context | exact I].
Qed.

End ContextIrrelevance.

(** Claim C8.  [generate] returns the same string for a node whatever
    context it is given, present or absent, and whatever the type of the
    context: the output is a function of the node tree alone. *)
Theorem generate_ignores_context :
  forall (C1 C2 : Type) (node : Node) (c1 : option C1) (c2 : option C2),
    MarkdownCodeGenerator.generate node c1
    = MarkdownCodeGenerator.generate node c2.
Proof.
  intros C1 C2 node c1 c2. unfold MarkdownCodeGenerator.generate.
  exact (proj1 (nodeToMarkdown_context c1 c2 node)).
Qed.

(** * Further properties of the generator *)

(** ** Marks nest, the last one outermost *)

Lemma slength_app (a b : string) :
  String.length (a ++ b) = String.length a + String.length b.
Proof. induction a as [|x a IH]; simpl; [reflexivity | now rewrite IH]. Qed.

Lemma join_singleton (x : string) : JS.join [x] = x.
Proof. reflexivity. Qed.

Lemma applyMarkToText_open_close {C : Type} (s : string) (m : Mark)
    (context : option C) :
  applyMarkToText s m context = markOpen m ++ s ++ markClose m.
Proof. destruct m as [| |[a|]]; reflexivity. Qed.

(** A text node with marks renders as the opening delimiters of its marks,
    last mark first, then the literal, then the closing delimiters in the
    order of the marks: the first mark is innermost, the last outermost. *)
Theorem text_marks_nest_last_outermost :
  forall (C : Type) (context : option C) (marks : list Mark) (t : string),
    nodeToMarkdown (TextNode (Some marks) t) context =
    JS.join (map markOpen (rev marks)) ++ t ++ JS.join (map markClose marks).
Proof.
  intros C context marks t.
  induction marks as [|m marks IH] using rev_ind.
  - cbn [rev map]. rewrite join_nil, sapp_nil_r. reflexivity.
  - rewrite textNode_snoc, IH, applyMarkToText_open_close.
    rewrite rev_app_distr. cbn [rev app map].
    rewrite join_cons, map_app, join_app. cbn [map].
    rewrite join_singleton. now rewrite !sapp_assoc.
Qed.

Lemma textNode_length {C : Type} (context : option C) (marks : list Mark)
    (t : string) :
  String.length (nodeToMarkdown (TextNode (Some marks) t) context) =
  String.length t + list_sum (map markOverhead marks).
Proof.
  induction marks as [|m marks IH] using rev_ind.
  - cbn. lia.
  - rewrite textNode_snoc, applyMarkToText_open_close.
    rewrite !slength_app, IH, map_app, list_sum_app.
    cbn [map list_sum fold_right]. unfold markOverhead. lia.
Qed.

Lemma list_sum_Permutation (xs ys : list nat) :
  Permutation xs ys -> list_sum xs = list_sum ys.
Proof.
  induction 1 as [|x xs ys _ IH|x y xs|xs ys zs _ IH1 _ IH2].
  - reflexivity.
  - change (x + list_sum xs = x + list_sum ys). lia.
  - change (y + (x + list_sum xs) = x + (y + list_sum xs)). lia.
  - lia.
Qed.

(** The length of a rendered text node is the length of its literal plus
    what each mark adds (four characters for bold, two for italic, four and
    the length of the [href] for a link); so reordering the marks of a text
    node never changes the length of what is rendered. *)
Theorem text_node_length_ignores_mark_order :
  forall (C : Type) (context : option C) (t : string) (marks marks' : list Mark),
    Permutation marks marks' ->
    String.length (nodeToMarkdown (TextNode (Some marks) t) context)
      = String.length t + list_sum (map markOverhead marks)
    /\ String.length (nodeToMarkdown (TextNode (Some marks) t) context)
       = String.length (nodeToMarkdown (TextNode (Some marks') t) context).
Proof.
  intros C context t marks marks' Hperm. split.
  - apply textNode_length.
  - rewrite !textNode_length. f_equal.
    apply list_sum_Permutation, Permutation_map, Hperm.
Qed.

Lemma text_node_length_ignores_mark_order_witness :
  String.length
    (nodeToMarkdown
       (TextNode (Some [LinkMark None; BoldMark]) "Hello") Fixtures.noContext)
  = String.length
      (nodeToMarkdown
         (TextNode (Some [BoldMark; LinkMark None]) "Hello") Fixtures.noContext).
Proof.
  exact (proj2 (text_node_length_ignores_mark_order
                  unit Fixtures.noContext "Hello"
                  [LinkMark None; BoldMark] [BoldMark; LinkMark None]
                  (perm_swap BoldMark (LinkMark None) []))).
Defined.

(** ** Rendering distributes over the content of a container *)

Lemma fragmentToMarkdown_app {C : Type} (context : option C)
    (a b : list Node) :
  fragmentToMarkdown (Some (a ++ b)%list) context =
  fragmentToMarkdown (Some a) context ++ fragmentToMarkdown (Some b) context.
Proof. now rewrite !fragmentToMarkdown_Some, map_app, join_app. Qed.

(** A [doc] or a [bulletList] whose content is two sequences put end to
    end renders as the two renderings put end to end: no separator is
    added, nothing is dropped at the seam. *)
Theorem doc_and_bullet_list_render_piecewise :
  forall (C : Type) (context : option C) (a b : list Node),
    nodeToMarkdown (DocNode (Some (a ++ b)%list)) context
      = nodeToMarkdown (DocNode (Some a)) context
        ++ nodeToMarkdown (DocNode (Some b)) context
    /\ nodeToMarkdown (BulletListNode (Some (a ++ b)%list)) context
       = nodeToMarkdown (BulletListNode (Some a)) context
         ++ nodeToMarkdown (BulletListNode (Some b)) context.
Proof.
  intros C context a b. split;
    rewrite !nodeToMarkdown_eq; apply fragmentToMarkdown_app.
Qed.

Lemma countListItems_cons (item : Node) (rest : list Node) :
  countListItems (item :: rest) =
  (if isListItem item then 1 else 0) + countListItems rest.
Proof.
  unfold countListItems. cbn [filter].
  destruct (isListItem item); reflexivity.
Qed.

Lemma orderedListLines_app {C : Type} (context : option C) (a b : list Node) :
  forall n : Z,
    orderedListLines context (a ++ b) n =
    (orderedListLines context a n
       ++ orderedListLines context b (JS.advance (countListItems a) n))%list.
Proof.
  induction a as [|item a IH]; intros n; [reflexivity|].
  cbn [app]. rewrite countListItems_cons.
  destruct (isListItem item) eqn:E.
  - destruct item; try discriminate.
    rewrite !orderedListLines_listItem, IH. reflexivity.
  - rewrite !(orderedListLines_other _ _ _ _ E), IH. reflexivity.
Qed.

(** An [orderedList] whose content is two sequences put end to end renders
    as the first sequence numbered from [start], followed by the second
    numbered from where the counter stands after the [listItem]s of the
    first: [start] incremented once for each.  While the counter counts
    exactly (start not below [-2^53], and not beyond [2^53] after those
    increments) that is [start] plus the number of [listItem]s in the
    first. *)
Theorem ordered_list_numbering_continues_across_append :
  forall (C : Type) (context : option C) (n : Z) (a b : list Node),
    nodeToMarkdown
      (OrderedListNode (Some (mkOrderedListAttrs (Some n)))
                       (Some (a ++ b)%list)) context
    = nodeToMarkdown
        (OrderedListNode (Some (mkOrderedListAttrs (Some n))) (Some a)) context
      ++ nodeToMarkdown
           (OrderedListNode
              (Some (mkOrderedListAttrs
                       (Some (JS.advance (countListItems a) n))))
              (Some b)) context
    /\ ((- JS.two53 <= n)%Z ->
        (n + Z.of_nat (countListItems a) <= JS.two53)%Z ->
        nodeToMarkdown
          (OrderedListNode (Some (mkOrderedListAttrs (Some n)))
                           (Some (a ++ b)%list)) context
        = nodeToMarkdown
            (OrderedListNode (Some (mkOrderedListAttrs (Some n))) (Some a))
            context
          ++ nodeToMarkdown
               (OrderedListNode
                  (Some (mkOrderedListAttrs
                           (Some (n + Z.of_nat (countListItems a))%Z)))
                  (Some b)) context).
Proof.
  intros C context n a b.
  assert (G : nodeToMarkdown
                (OrderedListNode (Some (mkOrderedListAttrs (Some n)))
                                 (Some (a ++ b)%list)) context
              = nodeToMarkdown
                  (OrderedListNode (Some (mkOrderedListAttrs (Some n)))
                                   (Some a)) context
                ++ nodeToMarkdown
                     (OrderedListNode
                        (Some (mkOrderedListAttrs
                                 (Some (JS.advance (countListItems a) n))))
                        (Some b)) context).
  { rewrite !orderedList_eq. cbn [startOf start].
    now rewrite orderedListLines_app, join_app. }
  split; [exact G|].
  intros Hlo Hhi. rewrite G. now rewrite advance_exact.
Qed.

Lemma ordered_list_numbering_continues_witness :
  nodeToMarkdown
    (OrderedListNode (Some (mkOrderedListAttrs (Some 9%Z)))
       (Some ([Fixtures.itemListItem; Fixtures.para "x"]
                ++ [Fixtures.itemListItem])%list))
    Fixtures.noContext
  = nodeToMarkdown
      (OrderedListNode (Some (mkOrderedListAttrs (Some 9%Z)))
         (Some [Fixtures.itemListItem; Fixtures.para "x"]))
      Fixtures.noContext
    ++ nodeToMarkdown
         (OrderedListNode
            (Some (mkOrderedListAttrs
                     (Some (9 + Z.of_nat
                                  (countListItems
                                     [Fixtures.itemListItem;
                                      Fixtures.para "x"]))%Z)))
            (Some [Fixtures.itemListItem]))
         Fixtures.noContext.
Proof.
  apply (proj2 (ordered_list_numbering_continues_across_append
                  unit Fixtures.noContext 9%Z
                  [Fixtures.itemListItem; Fixtures.para "x"]
                  [Fixtures.itemListItem])).
  - unfold JS.two53. lia.
  - cbn. unfold JS.two53. lia.
Defined.

(** ** What the trailing-newline replacement does to list items *)

Lemma newlines_add (j k : nat) : newlines j ++ newlines k = newlines (j + k).
Proof.
  induction j as [|j IH]; [reflexivity|].
  cbn [Nat.add]. rewrite !newlines_S. cbn [append]. now rewrite IH.
Qed.

Lemma replace_absorbs_newlines (s : string) (k : nat) :
  JS.replaceTrailingNewlines (s ++ newlines k) = JS.replaceTrailingNewlines s.
Proof.
  destruct (replace_decomp s) as [j Hj].
  rewrite Hj at 1. rewrite sapp_assoc, newlines_add.
  apply replace_app_newlines, replace_lastChar.
Qed.

Lemma replace_fixes_untrailed (s : string) :
  lastChar s <> Some JS.lf -> JS.replaceTrailingNewlines s = s.
Proof.
  intros H. rewrite <- (sapp_nil_r s) at 1.
  exact (replace_app_newlines s 0 H).
Qed.

Lemma emptyParagraphs_render {C : Type} (context : option C)
    (extra : list Node) :
  forallb isEmptyParagraph extra = true ->
  fragmentToMarkdown (Some extra) context = newlines (List.length extra).
Proof.
  rewrite fragmentToMarkdown_Some.
  induction extra as [|node extra IH]; intros H; [reflexivity|].
  cbn [forallb] in H. apply andb_true_iff in H as [Hnode Hextra].
  cbn [map List.length]. rewrite join_cons, (IH Hextra), newlines_S.
  destruct node as [| | | |[[|x xs]|]|]; try discriminate; reflexivity.
Qed.

(** Empty paragraphs at the end of a list item's content leave no trace:
    the item renders as it does without them, both through the dispatcher
    and as a numbered line of an [orderedList]. *)
Theorem list_item_drops_trailing_empty_paragraphs :
  forall (C : Type) (context : option C) (nodes extra : list Node),
    forallb isEmptyParagraph extra = true ->
    nodeToMarkdown (ListItemNode (Some (nodes ++ extra)%list)) context
      = nodeToMarkdown (ListItemNode (Some nodes)) context
    /\ forall rest n,
         orderedListLines context
           (ListItemNode (Some (nodes ++ extra)%list) :: rest) n
         = orderedListLines context (ListItemNode (Some nodes) :: rest) n.
Proof.
  intros C context nodes extra H.
  assert (E : JS.replaceTrailingNewlines
                (fragmentToMarkdown (Some (nodes ++ extra)%list) context)
              = JS.replaceTrailingNewlines
                  (fragmentToMarkdown (Some nodes) context)).
  { rewrite fragmentToMarkdown_app, (emptyParagraphs_render context extra H).
    apply replace_absorbs_newlines. }
  split.
  - now rewrite !listItem_eq, E.
  - intros rest n. now rewrite !orderedListLines_listItem, E.
Qed.

Lemma list_item_drops_trailing_empty_paragraphs_witness :
  nodeToMarkdown
    (ListItemNode
       (Some ([Fixtures.para "Item"]
                ++ [ParagraphNode None; ParagraphNode (Some [])])%list))
    Fixtures.noContext
  = nodeToMarkdown (ListItemNode (Some [Fixtures.para "Item"]))
                   Fixtures.noContext.
Proof.
  exact (proj1 (list_item_drops_trailing_empty_paragraphs
                  unit Fixtures.noContext [Fixtures.para "Item"]
                  [ParagraphNode None; ParagraphNode (Some [])] eq_refl)).
Defined.

(** A list item that holds one paragraph whose inline content does not end
    in a line feed renders on one line: the marker, the inline content as
    rendered, one line feed.  The blank line the paragraph ends with is
    removed, and nothing else. *)
Theorem list_item_of_one_paragraph_is_one_line :
  forall (C : Type) (context : option C) (x : Node) (xs : list Node),
    lastChar (fragmentToMarkdown (Some (x :: xs)) context) <> Some JS.lf ->
    nodeToMarkdown (ListItemNode (Some [ParagraphNode (Some (x :: xs))])) context
      = "- " ++ fragmentToMarkdown (Some (x :: xs)) context ++ JS.NL
    /\ forall n,
         orderedListLines context
           [ListItemNode (Some [ParagraphNode (Some (x :: xs))])] n
         = [JS.numberToString n ++ ". "
              ++ fragmentToMarkdown (Some (x :: xs)) context ++ JS.NL].
Proof.
  intros C context x xs H.
  assert (E : JS.replaceTrailingNewlines
                (fragmentToMarkdown
                   (Some [ParagraphNode (Some (x :: xs))]) context)
              = fragmentToMarkdown (Some (x :: xs)) context).
  { rewrite fragmentToMarkdown_Some. cbn [map]. rewrite join_singleton.
    rewrite nodeToMarkdown_eq.
    change (paragraphNodeToMarkdown (Some (x :: xs)) context)
      with (fragmentToMarkdown (Some (x :: xs)) context ++ newlines 2).
    now apply replace_app_newlines. }
  split.
  - now rewrite listItem_eq, E.
  - intros n. now rewrite orderedListLines_listItem, E.
Qed.

Lemma list_item_of_one_paragraph_is_one_line_witness :
  nodeToMarkdown
    (ListItemNode
       (Some [ParagraphNode
                (Some [TextNode None "Hello, "; TextNode None "world!"])]))
    Fixtures.noContext
  = "- " ++ "Hello, world!" ++ JS.NL.
Proof.
  refine (proj1 (list_item_of_one_paragraph_is_one_line
                   unit Fixtures.noContext
                   (TextNode None "Hello, ") [TextNode None "world!"] _)).
  discriminate.
Defined.

(** ** Lists end with one line feed; nested lists are not indented *)

Lemma EndsWithExactlyOneNewline_prefix (a line : string) :
  line <> JS.NL ->
  EndsWithExactlyOneNewline line ->
  EndsWithExactlyOneNewline (a ++ line).
Proof.
  intros Hne [body [-> Hbody]]. exists (a ++ body). split.
  - now rewrite sapp_assoc.
  - rewrite lastChar_app. destruct body as [|c body]; [|exact Hbody].
    now contradiction Hne.
Qed.

Lemma long_not_NL (s : string) : 2 <= String.length s -> s <> JS.NL.
Proof. intros H ->. cbn in H. lia. Qed.

Lemma join_snoc (xs : list string) (x : string) :
  JS.join (xs ++ [x]) = JS.join xs ++ x.
Proof. now rewrite join_app, join_singleton. Qed.

Lemma decimal_nonempty (n : Z) :
  exists c rest, JS.decimal n = String c rest.
Proof.
  unfold JS.decimal, NilZero.string_of_int.
  destruct (Z.to_int n) as [d|d].
  - unfold NilZero.string_of_uint. destruct d; eexists _, _; reflexivity.
  - eexists _, _; reflexivity.
Qed.

Lemma formatNumber_nonempty (s k n : Z) :
  exists c rest, JS.formatNumber s k n = String c rest.
Proof.
  unfold JS.formatNumber.
  destruct (decimal_nonempty s) as [c [rest ->]].
  destruct (n <=? 21)%Z.
  - eexists _, _. reflexivity.
  - destruct rest; eexists _, _; reflexivity.
Qed.

Lemma numberToString_nonempty (n : Z) :
  exists c rest, JS.numberToString n = String c rest.
Proof.
  unfold JS.numberToString.
  destruct (Z.abs n <=? JS.two53)%Z; [apply decimal_nonempty|].
  destruct (JS.shortest (Z.abs n)
              (Z.of_nat (String.length (JS.decimal (Z.abs n)))) 1 17)
    as [[s k] nn].
  destruct (formatNumber_nonempty s k nn) as [c [rest ->]].
  destruct (n <? 0)%Z; eexists _, _; reflexivity.
Qed.

Lemma marker_line_shape (a marker content : string) :
  marker <> "" ->
  lastChar marker <> Some JS.lf ->
  OneLineFeedAfterBody
    (a ++ marker ++ JS.replaceTrailingNewlines content ++ JS.NL).
Proof.
  intros Hne Hlast.
  exists (a ++ marker ++ JS.replaceTrailingNewlines content).
  assert (Hbody : marker ++ JS.replaceTrailingNewlines content <> "").
  { destruct marker; [contradiction|discriminate]. }
  repeat split.
  - destruct a; [exact Hbody|discriminate].
  - rewrite lastChar_app.
    destruct (marker ++ JS.replaceTrailingNewlines content) eqn:E;
      [contradiction|].
    rewrite <- E. apply lastChar_prefix; [exact Hlast|apply replace_lastChar].
  - now rewrite !sapp_assoc.
Qed.

Lemma bulletList_ending_in_item_shape {C : Type} (context : option C)
    (init : list Node) (content : Fragment) :
  OneLineFeedAfterBody
    (nodeToMarkdown
       (BulletListNode (Some (init ++ [ListItemNode content])%list)) context).
Proof.
  rewrite nodeToMarkdown_eq.
  change (bulletListNodeToMarkdown ?c context)
    with (fragmentToMarkdown c context).
  rewrite fragmentToMarkdown_app.
  rewrite (fragmentToMarkdown_Some [ListItemNode content]).
  cbn [map]. rewrite join_singleton, listItem_eq.
  apply marker_line_shape; discriminate.
Qed.

Lemma orderedList_ending_in_item_shape {C : Type} (context : option C)
    (attrs : option OrderedListAttrs) (init : list Node) (content : Fragment) :
  OneLineFeedAfterBody
    (nodeToMarkdown
       (OrderedListNode attrs (Some (init ++ [ListItemNode content])%list))
       context).
Proof.
  rewrite orderedList_eq, orderedListLines_app.
  rewrite orderedListLines_listItem.
  change (orderedListLines context [] ?n) with (@nil string).
  rewrite join_snoc, <- (sapp_assoc (JS.numberToString _) ". ").
  apply marker_line_shape.
  - destruct (numberToString_nonempty
                (JS.advance (countListItems init) (startOf attrs)))
      as [c [rest ->]].
    discriminate.
  - apply ordinal_marker_lastChar.
Qed.

Lemma OneLineFeedAfterBody_ends_once (s : string) :
  OneLineFeedAfterBody s -> EndsWithExactlyOneNewline s.
Proof. intros [body [_ [Hlast ->]]]. now exists body. Qed.

(** A [bulletList] or an [orderedList] whose last entry is a [listItem]
    renders to a string that ends with exactly one line feed, whatever comes
    before that entry and whatever the item holds. *)
Theorem list_ending_in_item_ends_with_one_newline :
  forall (C : Type) (context : option C) (init : list Node)
         (content : Fragment) (attrs : option OrderedListAttrs),
    EndsWithExactlyOneNewline
      (nodeToMarkdown
         (BulletListNode (Some (init ++ [ListItemNode content])%list)) context)
    /\ EndsWithExactlyOneNewline
         (nodeToMarkdown
            (OrderedListNode attrs (Some (init ++ [ListItemNode content])%list))
            context).
Proof.
  intros C context init content attrs. split.
  - apply OneLineFeedAfterBody_ends_once, bulletList_ending_in_item_shape.
  - apply OneLineFeedAfterBody_ends_once, orderedList_ending_in_item_shape.
Qed.

Lemma listItem_keeps_shaped_tail {C : Type} (context : option C)
    (front : list Node) (nested : Node) :
  OneLineFeedAfterBody (nodeToMarkdown nested context) ->
  nodeToMarkdown (ListItemNode (Some (front ++ [nested])%list)) context
  = "- " ++ fragmentToMarkdown (Some front) context
         ++ nodeToMarkdown nested context.
Proof.
  intros [body [Hne [Hlast E]]].
  rewrite listItem_eq, fragmentToMarkdown_app.
  rewrite (fragmentToMarkdown_Some [nested]). cbn [map].
  rewrite join_singleton, E.
  rewrite <- (sapp_assoc (fragmentToMarkdown (Some front) context) body JS.NL).
  change JS.NL with (newlines 1) at 1.
  rewrite replace_app_newlines; [now rewrite sapp_assoc|].
  rewrite lastChar_app. destruct body; [contradiction|exact Hlast].
Qed.

(** A list item whose content ends with a nested list (bullet or ordered)
    that itself ends in a [listItem] renders as the marker followed by the
    rendering of its content, unchanged: the nested list appears exactly as
    it renders on its own, without indentation, and the blank line of the
    paragraph before it stays. *)
Theorem list_item_keeps_nested_list_verbatim :
  forall (C : Type) (context : option C) (front init : list Node)
         (content : Fragment) (attrs : option OrderedListAttrs),
    let bullets := BulletListNode (Some (init ++ [ListItemNode content])%list) in
    let numbered :=
      OrderedListNode attrs (Some (init ++ [ListItemNode content])%list) in
    nodeToMarkdown (ListItemNode (Some (front ++ [bullets])%list)) context
      = "- " ++ fragmentToMarkdown (Some front) context
             ++ nodeToMarkdown bullets context
    /\ nodeToMarkdown (ListItemNode (Some (front ++ [numbered])%list)) context
       = "- " ++ fragmentToMarkdown (Some front) context
              ++ nodeToMarkdown numbered context.
Proof.
  intros C context front init content attrs bullets numbered. split.
  - apply listItem_keeps_shaped_tail, bulletList_ending_in_item_shape.
  - apply listItem_keeps_shaped_tail, orderedList_ending_in_item_shape.
Qed.

Lemma plain_texts_render {C : Type} (context : option C) (texts : list string) :
  fragmentToMarkdown (Some (map (TextNode None) texts)) context
  = JS.join texts.
Proof.
  rewrite fragmentToMarkdown_Some.
  induction texts as [|t texts IH]; [reflexivity|].
  cbn [map]. now rewrite !join_cons, IH.
Qed.

(** A paragraph of text nodes without marks renders as their literals put
    end to end, with no separator, followed by a blank line. *)
Theorem paragraph_of_plain_texts_concatenates :
  forall (C : Type) (context : option C) (t : string) (texts : list string),
    nodeToMarkdown
      (ParagraphNode (Some (map (TextNode None) (t :: texts)))) context
    = JS.join (t :: texts) ++ JS.NL ++ JS.NL.
Proof.
  intros C context t texts. rewrite nodeToMarkdown_eq.
  change (paragraphNodeToMarkdown (Some (map (TextNode None) (t :: texts)))
                                  context)
    with (fragmentToMarkdown (Some (map (TextNode None) (t :: texts))) context
            ++ JS.NL ++ JS.NL).
  now rewrite plain_texts_render.
Qed.

(** * The build command: output paths *)

Module BuildPaths.
Import Build.

Example inferOutput_examples (path : PathModule) :
  inferOutput path "resume.yaml" "latex" None = Returns "resume.tex"
  /\ inferOutput path "dir/resume.yml" "markdown" None = Returns "dir/resume.md"
  /\ inferOutput path "my.yaml.json" "latex" None = Returns "my.tex.json"
  /\ getPdfPath "a.tex/resume.tex" = "a.tex/resume.pdf"
  /\ getPdfPath "resume.md" = "resume.md".
Proof. repeat split. Qed.

(** ** Suffixes, prefixes and the first match *)

Lemma endsWith_app (p suffix : string) : endsWith (p ++ suffix) suffix = true.
Proof.
  induction p as [|c p IH].
  - destruct suffix; cbn [append endsWith]; now rewrite String.eqb_refl.
  - cbn [append endsWith]. now rewrite IH, orb_true_r.
Qed.

Lemma endsWith_inv (s suffix : string) :
  endsWith s suffix = true -> exists p, s = p ++ suffix.
Proof.
  induction s as [|c s IH]; cbn [endsWith]; intros H.
  - rewrite orb_false_r in H. apply String.eqb_eq in H. now exists "".
  - apply orb_true_iff in H as [H|H].
    + apply String.eqb_eq in H. now exists "".
    + destruct (IH H) as [p ->]. now exists (String c p).
Qed.

Lemma beginsWith_inv (literal s : string) :
  beginsWith literal s = true -> exists r, s = literal ++ r.
Proof.
  revert s. induction literal as [|a literal IH]; intros s H.
  - now exists s.
  - destruct s as [|b s]; [discriminate|]. cbn [beginsWith] in H.
    apply andb_true_iff in H as [Hab H]. apply Ascii.eqb_eq in Hab. subst b.
    destruct (IH s H) as [r ->]. now exists r.
Qed.

Lemma replaceFirst_hit (matchAt : string -> option nat) (r s : string)
    (n : nat) :
  matchAt s = Some n -> replaceFirst matchAt r s = r ++ dropChars n s.
Proof. intros H. destruct s; cbn [replaceFirst]; now rewrite H. Qed.

Lemma replaceFirst_miss (matchAt : string -> option nat) (r : string)
    (c : ascii) (rest : string) :
  matchAt (String c rest) = None ->
  replaceFirst matchAt r (String c rest)
  = String c (replaceFirst matchAt r rest).
Proof. intros H. cbn [replaceFirst]. now rewrite H. Qed.

(** No match starts inside [a]: the replacement leaves [a] alone. *)
Lemma replaceFirst_skip (matchAt : string -> option nat) (r rest : string) :
  forall a : string,
    (forall p c q, a = p ++ String c q ->
                   matchAt (String c q ++ rest) = None) ->
    replaceFirst matchAt r (a ++ rest) = a ++ replaceFirst matchAt r rest.
Proof.
  induction a as [|c a IH]; intros H; [reflexivity|].
  cbn [append]. rewrite replaceFirst_miss.
  - f_equal. apply IH. intros p d q E.
    apply (H (String c p) d q). cbn [append]. now rewrite E.
  - exact (H "" c a eq_refl).
Qed.

(** No match anywhere: the input comes back unchanged. *)
Lemma replaceFirst_none (matchAt : string -> option nat) (r : string) :
  forall s : string,
    (forall p q, s = p ++ q -> matchAt q = None) ->
    replaceFirst matchAt r s = s.
Proof.
  induction s as [|c s IH]; intros H.
  - cbn [replaceFirst]. now rewrite (H "" "" eq_refl).
  - rewrite replaceFirst_miss; [|exact (H "" _ eq_refl)].
    f_equal. apply IH. intros p q E. apply (H (String c p) q).
    cbn [append]. now rewrite E.
Qed.

Lemma accepted_cases (ext : string) :
  In ext sourceExtensions -> ext = ".yaml" \/ ext = ".yml" \/ ext = ".json".
Proof.
  intros [H|[H|[H|H]]]; auto; contradiction.
Qed.

Lemma acceptedb_iff (resumePath : string) :
  endsWith resumePath ".yaml" || endsWith resumePath ".yml"
    || endsWith resumePath ".json" = true
  <-> Accepted resumePath.
Proof.
  split.
  - intros H. apply orb_true_iff in H as [H|H];
      [apply orb_true_iff in H as [H|H]|];
      destruct (endsWith_inv _ _ H) as [stem ->]; eexists stem, _;
      (split; [|reflexivity]); cbn; auto.
  - intros [stem [ext [Hext ->]]].
    destruct (accepted_cases ext Hext) as [-> | [-> | ->]];
      rewrite endsWith_app; now rewrite ?orb_true_r.
Qed.

(** A non-empty string in front of an accepted extension is none of the
    literals the pattern looks for. *)
Lemma proper_suffix_is_no_literal (c : ascii) (q ext literal : string) :
  In ext sourceExtensions -> In literal sourceExtensions ->
  String c q ++ ext <> literal.
Proof.
  intros Hext Hlit E.
  pose proof (f_equal String.length E) as L.
  cbn [append String.length] in L. rewrite slength_app in L.
  destruct (accepted_cases ext Hext) as [-> | [-> | ->]];
    destruct (accepted_cases literal Hlit) as [-> | [-> | ->]];
    cbn [String.length] in L; try lia;
    (destruct q; [discriminate E | cbn [String.length] in L; lia]).
Qed.

Lemma inferOutput_not_accepted (path : PathModule) (resumePath fmt : string)
    (outputDir : option string) :
  ~ Accepted resumePath ->
  inferOutput path resumePath fmt outputDir
  = Throws (INVALID_EXTNAME (path_extname path resumePath)).
Proof.
  intros N. unfold inferOutput.
  destruct (endsWith resumePath ".yaml" || endsWith resumePath ".yml"
              || endsWith resumePath ".json") eqn:E; [|reflexivity].
  apply acceptedb_iff in E. contradiction.
Qed.

Lemma inferOutput_accepted (path : PathModule) (resumePath fmt : string)
    (outputDir : option string) :
  Accepted resumePath ->
  exists out, inferOutput path resumePath fmt outputDir = Returns out.
Proof.
  intros A. apply acceptedb_iff in A. unfold inferOutput. rewrite A.
  destruct outputDir as [[|c dir]|]; eexists; reflexivity.
Qed.

Lemma inferOutput_returns_accepted (path : PathModule)
    (resumePath fmt out : string) (outputDir : option string) :
  inferOutput path resumePath fmt outputDir = Returns out ->
  Accepted resumePath.
Proof.
  unfold inferOutput.
  destruct (endsWith resumePath ".yaml" || endsWith resumePath ".yml"
              || endsWith resumePath ".json") eqn:E; [|discriminate].
  intros _. now apply acceptedb_iff.
Qed.

(** ** [inferOutput] *)

(** [inferOutput] throws exactly when the path ends with none of [.yaml],
    [.yml] and [.json] (compared as written, so [.YAML] is refused), and the
    error is [INVALID_EXTNAME] carrying what [path.extname] makes of the
    path; the format and the output directory play no part in that. *)
Theorem inferOutput_throws_iff_extension_not_accepted :
  forall (path : PathModule) (resumePath format : string)
         (outputDir : option string),
    (Accepted resumePath <->
       exists out, inferOutput path resumePath format outputDir = Returns out)
    /\ (~ Accepted resumePath <->
          inferOutput path resumePath format outputDir
          = Throws (INVALID_EXTNAME (path_extname path resumePath)))
    /\ ~ Accepted "resume.YAML".
Proof.
  intros path resumePath format outputDir.
  assert (Hupper : ~ Accepted "resume.YAML").
  { intros B. apply (acceptedb_iff "resume.YAML") in B. discriminate B. }
  pose proof (acceptedb_iff resumePath) as Hacc.
  unfold inferOutput.
  destruct (endsWith resumePath ".yaml" || endsWith resumePath ".yml"
              || endsWith resumePath ".json") eqn:E.
  - assert (A : Accepted resumePath) by now apply Hacc.
    split; [|split; [|exact Hupper]].
    + split; [|intros _; exact A].
      intros _. destruct outputDir as [[|c dir]|]; eexists; reflexivity.
    + split; [intros N; contradiction|].
      destruct outputDir as [[|c dir]|]; discriminate.
  - assert (A : ~ Accepted resumePath).
    { intros A. apply Hacc in A. discriminate A. }
    split; [|split; [|exact Hupper]].
    + split; [intros B; contradiction|].
      intros [out H]. discriminate H.
    + split; [reflexivity|intros _; exact A].
Qed.

Lemma sourceExtension_inside (stem ext : string) :
  In ext sourceExtensions ->
  OnlyAtEnd ".yaml" (stem ++ ext) -> OnlyAtEnd ".yml" (stem ++ ext) ->
  forall p c q, stem = p ++ String c q ->
                sourceExtension (String c q ++ ext) = None.
Proof.
  intros Hext Hyaml Hyml p c q ->.
  assert (Hsplit : forall literal r,
             String c q ++ ext = literal ++ r ->
             (p ++ String c q) ++ ext = p ++ literal ++ r).
  { intros literal r E. now rewrite sapp_assoc, E. }
  unfold sourceExtension.
  destruct (beginsWith ".yaml" (String c q ++ ext)) eqn:B1.
  { exfalso. apply beginsWith_inv in B1 as [r E].
    pose proof (Hyaml p r (Hsplit _ _ E)) as ->. rewrite sapp_nil_r in E.
    apply (proper_suffix_is_no_literal c q ext ".yaml" Hext); cbn; auto. }
  destruct (beginsWith ".yml" (String c q ++ ext)) eqn:B2.
  { exfalso. apply beginsWith_inv in B2 as [r E].
    pose proof (Hyml p r (Hsplit _ _ E)) as ->. rewrite sapp_nil_r in E.
    apply (proper_suffix_is_no_literal c q ext ".yml" Hext); cbn; auto. }
  destruct (String.eqb (String c q ++ ext) ".json") eqn:B3; [|reflexivity].
  exfalso. apply String.eqb_eq in B3.
  apply (proper_suffix_is_no_literal c q ext ".json" Hext); cbn; auto.
Qed.

Lemma replace_extension (stem ext r : string) :
  In ext sourceExtensions ->
  OnlyAtEnd ".yaml" (stem ++ ext) -> OnlyAtEnd ".yml" (stem ++ ext) ->
  replaceFirst sourceExtension r (stem ++ ext) = stem ++ r.
Proof.
  intros Hext Hyaml Hyml.
  rewrite replaceFirst_skip
    by (apply (sourceExtension_inside stem ext Hext Hyaml Hyml)).
  f_equal.
  destruct (accepted_cases ext Hext) as [-> | [-> | ->]];
    cbn; apply sapp_nil_r.
Qed.

(** For a path that ends with an accepted extension and has [.yaml] and
    [.yml] nowhere before its end, and with no output directory,
    [inferOutput] returns the path with that extension exchanged for [.md]
    when the format is [markdown] and for [.tex] otherwise; directories in
    the path are kept. *)
Theorem inferOutput_exchanges_the_extension :
  forall (path : PathModule) (stem ext format : string),
    In ext sourceExtensions ->
    OnlyAtEnd ".yaml" (stem ++ ext) ->
    OnlyAtEnd ".yml" (stem ++ ext) ->
    inferOutput path (stem ++ ext) format None
    = Returns (stem ++ (if String.eqb format "markdown" then ".md" else ".tex")).
Proof.
  intros path stem ext format Hext Hyaml Hyml.
  unfold inferOutput.
  replace (endsWith (stem ++ ext) ".yaml" || endsWith (stem ++ ext) ".yml"
             || endsWith (stem ++ ext) ".json") with true.
  - now rewrite replace_extension.
  - symmetry. apply acceptedb_iff. now exists stem, ext.
Qed.

Lemma beginsWith_app (literal r : string) :
  beginsWith literal (literal ++ r) = true.
Proof.
  induction literal as [|a literal IH]; [reflexivity|].
  cbn [append beginsWith]. now rewrite Ascii.eqb_refl, IH.
Qed.

Lemma sapp_eq_self (literal b : string) : literal ++ b = literal -> b = "".
Proof.
  intros E. apply (f_equal String.length) in E. rewrite slength_app in E.
  destruct b; [reflexivity|]. cbn [String.length] in E. lia.
Qed.

Lemma occursBeforeEnd_sound (literal s : string) :
  occursBeforeEnd literal s = false -> OnlyAtEnd literal s.
Proof.
  intros H a. revert s H. induction a as [|c a IH]; intros s H b E.
  - cbn [append] in E. subst s. destruct (literal ++ b) as [|c rest] eqn:L.
    + destruct literal; [exact L|discriminate L].
    + cbn [occursBeforeEnd] in H. apply orb_false_iff in H as [H _].
      rewrite <- L, beginsWith_app in H. cbn [andb] in H.
      apply negb_false_iff, String.eqb_eq in H. exact (sapp_eq_self _ _ H).
  - subst s. cbn [append occursBeforeEnd] in H.
    apply orb_false_iff in H as [_ H]. exact (IH _ H b eq_refl).
Qed.

Lemma inferOutput_exchanges_the_extension_witness :
  inferOutput samplePath ("dir.d/resume" ++ ".yml") "markdown" None
  = Returns ("dir.d/resume" ++ ".md").
Proof.
  apply (inferOutput_exchanges_the_extension
           samplePath "dir.d/resume" ".yml" "markdown").
  - cbn. auto.
  - apply occursBeforeEnd_sound. reflexivity.
  - apply occursBeforeEnd_sound. reflexivity.
Defined.

(** With an output directory, [inferOutput] returns the base name of what
    it returns without one, joined to the directory; an empty directory
    string counts as none. *)
Theorem inferOutput_puts_the_base_name_in_the_output_directory :
  forall (path : PathModule) (resumePath fmt file : string)
         (c : ascii) (dir : string),
    inferOutput path resumePath fmt None = Returns file ->
    inferOutput path resumePath fmt (Some (String c dir))
      = Returns (path_join path (String c dir) (path_basename path file))
    /\ inferOutput path resumePath fmt (Some "") = Returns file.
Proof.
  intros path resumePath fmt file c dir. unfold inferOutput.
  destruct (endsWith resumePath ".yaml" || endsWith resumePath ".yml"
              || endsWith resumePath ".json"); [|discriminate].
  intros H. injection H as <-. split; reflexivity.
Qed.

Lemma inferOutput_puts_the_base_name_witness :
  inferOutput samplePath "cv/resume.yaml" "markdown" (Some "out")
  = Returns "out/resume.md".
Proof.
  exact (proj1 (inferOutput_puts_the_base_name_in_the_output_directory
                  samplePath "cv/resume.yaml" "markdown" "cv/resume.md"
                  "o" "ut" eq_refl)).
Defined.

Lemma containsChar_inside (ch c : ascii) (p q : string) :
  containsChar ch (p ++ String c q) = false -> Ascii.eqb ch c = false.
Proof.
  induction p as [|d p IH]; cbn [append containsChar]; intros H;
    apply orb_false_iff in H as [H1 H2]; auto.
Qed.

Lemma sourceExtension_needs_dot (c : ascii) (rest : string) :
  Ascii.eqb "." c = false -> sourceExtension (String c rest) = None.
Proof.
  intros H. unfold sourceExtension. cbn [beginsWith]. rewrite H. cbn [andb].
  destruct (String.eqb (String c rest) ".json") eqn:E; [|reflexivity].
  apply String.eqb_eq in E. injection E as -> _.
  now rewrite Ascii.eqb_refl in H.
Qed.

(** The pattern is tried from the left and only its [.json] alternative is
    tied to the end: when the first dot of an accepted path starts [.yaml] or
    [.yml], that occurrence is what is exchanged for the output extension,
    wherever it stands, and everything after it, the real extension included,
    is kept. *)
Theorem inferOutput_exchanges_the_first_yaml_or_yml :
  forall (path : PathModule) (a literal b format : string),
    In literal [".yaml"; ".yml"] ->
    containsChar "." a = false ->
    Accepted (a ++ literal ++ b) ->
    inferOutput path (a ++ literal ++ b) format None
    = Returns (a ++ (if String.eqb format "markdown" then ".md" else ".tex")
                 ++ b).
Proof.
  intros path a literal b format Hlit Hdot Hacc.
  unfold inferOutput.
  apply acceptedb_iff in Hacc. rewrite Hacc.
  set (r := if String.eqb format "markdown" then ".md" else ".tex").
  assert (Hhit : replaceFirst sourceExtension r (literal ++ b) = r ++ b).
  { destruct Hlit as [<-|[<-|H]]; [| |contradiction].
    - exact (replaceFirst_hit sourceExtension r (".yaml" ++ b) 5 eq_refl).
    - exact (replaceFirst_hit sourceExtension r (".yml" ++ b) 4 eq_refl). }
  rewrite replaceFirst_skip; [now rewrite Hhit|].
  intros p c q E. rewrite E in Hdot.
    apply containsChar_inside in Hdot.
    cbn [append]. now apply sourceExtension_needs_dot.
Qed.

Lemma inferOutput_exchanges_the_first_yaml_or_yml_witness :
  inferOutput samplePath ("resume" ++ ".yaml" ++ ".backup.json") "latex" None
  = Returns ("resume" ++ ".tex" ++ ".backup.json").
Proof.
  apply (inferOutput_exchanges_the_first_yaml_or_yml
           samplePath "resume" ".yaml" ".backup.json" "latex").
  - cbn. auto.
  - reflexivity.
  - apply acceptedb_iff. reflexivity.
Defined.

(** ** [getPdfPath] *)

Lemma texExtension_inside (c : ascii) (q : string) :
  texExtension (String c q ++ ".tex") = None.
Proof.
  unfold texExtension.
  destruct (String.eqb (String c q ++ ".tex") ".tex") eqn:E; [|reflexivity].
  apply String.eqb_eq, (f_equal String.length) in E.
  cbn [append String.length] in E. rewrite slength_app in E.
  cbn [String.length] in E. lia.
Qed.

Lemma replace_tex (stem r : string) :
  replaceFirst texExtension r (stem ++ ".tex") = stem ++ r.
Proof.
  rewrite replaceFirst_skip.
  - f_equal. cbn. apply sapp_nil_r.
  - intros p c q _. apply texExtension_inside.
Qed.

Lemma endsWith_suffix (p q suffix : string) :
  endsWith q suffix = true -> endsWith (p ++ q) suffix = true.
Proof.
  intros H. apply endsWith_inv in H as [r ->].
  rewrite <- sapp_assoc. apply endsWith_app.
Qed.

(** [getPdfPath] exchanges a final [.tex] for [.pdf], leaving any earlier
    [.tex] in the path alone, and returns a path that does not end in [.tex]
    unchanged. *)
Theorem getPdfPath_exchanges_only_a_final_tex :
  forall texPath : string,
    (forall stem, texPath = stem ++ ".tex" ->
                  getPdfPath texPath = stem ++ ".pdf")
    /\ (endsWith texPath ".tex" = false -> getPdfPath texPath = texPath).
Proof.
  intros texPath. split.
  - intros stem ->. apply replace_tex.
  - intros H. apply replaceFirst_none. intros p q ->.
    unfold texExtension. destruct (String.eqb q ".tex") eqn:E; [|reflexivity].
    apply String.eqb_eq in E. subst q.
    now rewrite endsWith_app in H.
Qed.

Lemma getPdfPath_exchanges_only_a_final_tex_witness :
  getPdfPath "out.tex/resume.tex" = "out.tex/resume" ++ ".pdf"
  /\ getPdfPath "resume.md" = "resume.md".
Proof.
  split.
  - exact (proj1 (getPdfPath_exchanges_only_a_final_tex "out.tex/resume.tex")
             "out.tex/resume" eq_refl).
  - exact (proj2 (getPdfPath_exchanges_only_a_final_tex "resume.md") eq_refl).
Defined.

(** For a source path as in [inferOutput_exchanges_the_extension], the TeX
    file inferred for the [latex] format and the PDF path derived from it
    differ from the source path in the extension only. *)
Theorem pdf_path_of_inferred_tex_file :
  forall (path : PathModule) (stem ext : string),
    In ext sourceExtensions ->
    OnlyAtEnd ".yaml" (stem ++ ext) ->
    OnlyAtEnd ".yml" (stem ++ ext) ->
    exists texFile,
      inferOutput path (stem ++ ext) "latex" None = Returns texFile
      /\ texFile = stem ++ ".tex"
      /\ getPdfPath texFile = stem ++ ".pdf".
Proof.
  intros path stem ext Hext Hyaml Hyml. exists (stem ++ ".tex").
  split; [|split; [reflexivity|apply replace_tex]].
  unfold inferOutput.
  replace (endsWith (stem ++ ext) ".yaml" || endsWith (stem ++ ext) ".yml"
             || endsWith (stem ++ ext) ".json") with true.
  - now rewrite replace_extension.
  - symmetry. apply acceptedb_iff. now exists stem, ext.
Qed.

Lemma pdf_path_of_inferred_tex_file_witness :
  exists texFile,
    inferOutput samplePath ("cv/resume" ++ ".json") "latex" None
    = Returns texFile
    /\ texFile = "cv/resume" ++ ".tex"
    /\ getPdfPath texFile = "cv/resume" ++ ".pdf".
Proof.
  apply (pdf_path_of_inferred_tex_file samplePath "cv/resume" ".json").
  - cbn. auto.
  - apply occursBeforeEnd_sound. reflexivity.
  - apply occursBeforeEnd_sound. reflexivity.
Defined.

End BuildPaths.

(** * The build command: what it does to the world *)

Module BuildEffects.
Import Build.

(** Take the program apart along the answers of the environment. *)
Ltac split_answer :=
  match goal with
  | |- context [match ?x with _ => _ end] =>
      lazymatch type of x with
      | Prog _ => fail
      | _ => destruct x eqn:?
      end
  | |- context [if ?x then _ else _] => destruct x eqn:?
  end.

Ltac unfold_program :=
  cbv delta [call isCommandAvailable inferLaTeXEnvironment
             inferLaTeXCommand generateTeX];
  cbv beta;
  cbn [run bind fst snd app].

Ltac execute := unfold_program; repeat (split_answer; unfold_program).

Section WithCollaborators.

Context {Resume Exn : Type}.
Variable path : PathModule.
Variable core : CoreHelpers.

(** [buildResume] checks the format before anything else: with a format
    other than [latex] and [markdown] it throws [INVALID_FORMAT] without a
    single call to the outside, whatever the path.  A missing or empty format
    is [latex]. *)
Theorem buildResume_refuses_unknown_format_before_any_effect :
  forall (env : @Environment Resume Exn) (resumePath f : string)
         (p v : option bool) (o : option string),
    f <> "" -> f <> "latex" -> f <> "markdown" ->
    run env [] (buildResume path core resumePath
                  (Some (mkBuildOptions p v o (Some f))))
      = ([], Threw (OwnError (INVALID_FORMAT f)))
    /\ @buildResume Resume Exn path core resumePath
         (Some (mkBuildOptions p v o None))
       = buildResume path core resumePath
           (Some (mkBuildOptions p v o (Some "latex")))
    /\ @buildResume Resume Exn path core resumePath
         (Some (mkBuildOptions p v o (Some "")))
       = buildResume path core resumePath
           (Some (mkBuildOptions p v o (Some "latex"))).
Proof.
  intros env resumePath f p v o Hempty Hlatex Hmarkdown.
  split; [|split; reflexivity].
  unfold buildResume, chosenFormat. cbn [format].
  destruct f as [|c f]; [contradiction|].
  apply String.eqb_neq in Hlatex, Hmarkdown.
  now rewrite Hlatex, Hmarkdown.
Qed.

Ltac in_cases H :=
  cbn [fst snd app In] in H;
  repeat (destruct H as [H|H]; [try (subst; reflexivity)|]);
  try contradiction.

(** LaTeX is neither looked up nor run when the format is [markdown],
    whatever the [pdf] option says, nor when [pdf] is not [true] (so also
    when the options leave it out). *)
Theorem latex_is_left_alone_for_markdown_and_without_pdf :
  forall (env : @Environment Resume Exn) (resumePath : string)
         (o : BuildOptions),
    chosenFormat o = "markdown" \/ pdf o <> Some true ->
    forall ev,
      In ev (fst (run env [] (buildResume path core resumePath (Some o)))) ->
      isLaTeXEvent ev = false.
Proof.
  intros env resumePath o H.
  unfold buildResume. cbv zeta. destruct H as [H|H].
  - rewrite H. cbn [String.eqb Ascii.eqb Bool.eqb negb andb].
    execute; intros ev Hin; in_cases Hin.
  - destruct (pdf o) as [[|]|]; [contradiction| |];
      execute; intros ev Hin; in_cases Hin.
Qed.

Ltac find_event H :=
  cbn [fst snd app In] in H;
  repeat (destruct H as [H|H]; [try discriminate H|]);
  try contradiction.

Ltac in_list :=
  cbn [fst snd app In];
  repeat first [left; reflexivity | right].

Ltac absurd_extension :=
  match goal with
  | N : ~ Accepted ?p, H : inferOutput _ ?p _ _ = Returns _ |- _ =>
      exfalso; apply N; exact (BuildPaths.inferOutput_returns_accepted _ _ _ _ _ H)
  end.

(** A source path with an extension that is not accepted is still read
    (and validated) first: with a valid format, [readResume] is called, and
    that call is all that happens.  No directory is made, nothing is rendered
    or written, no message is logged.  The build never returns: it throws
    what the reading threw, or [INVALID_EXTNAME] when the reading
    succeeded. *)
Theorem unsupported_extension_is_noticed_after_reading :
  forall (env : @Environment Resume Exn) (resumePath : string)
         (o : BuildOptions),
    ~ Accepted resumePath ->
    let result := run env [] (buildResume path core resumePath (Some o)) in
    let answer := env_readResume env [] resumePath (validate o) in
    (forall ev, In ev (fst result) ->
                ev = EvReadResume resumePath (validate o) answer)
    /\ snd result <> Returned tt
    /\ (chosenFormat o = "latex" \/ chosenFormat o = "markdown" ->
        fst result = [EvReadResume resumePath (validate o) answer]
        /\ (forall resume,
              answer = inr resume ->
              snd result
              = Threw (OwnError
                         (INVALID_EXTNAME (path_extname path resumePath))))
        /\ (forall thrown,
              answer = inl thrown -> snd result = Threw thrown)).
Proof.
  intros env resumePath o N result answer. subst result answer.
  unfold buildResume. cbv zeta.
  split; [|split].
  - execute; try absurd_extension; intros ev Hin; in_cases Hin.
  - execute; try absurd_extension; discriminate.
  - intros Hfmt.
    destruct Hfmt as [-> | ->]; cbn [String.eqb Ascii.eqb Bool.eqb negb andb];
      unfold_program;
      destruct (env_readResume env [] resumePath (validate o))
        as [thrown|resume] eqn:Hread;
      unfold_program;
      rewrite ?(BuildPaths.inferOutput_not_accepted path resumePath _ _ N);
      unfold_program;
      (split; [reflexivity|]);
      split; intros x Hx;
      first [discriminate Hx | injection Hx as ->; reflexivity | reflexivity].
Qed.

(** When writing the output file fails, the build throws
    [FILE_WRITE_ERROR] naming the file that [inferOutput] gave, whatever was
    thrown by the write; LaTeX is then neither looked up nor run, and no
    message is logged. *)
Theorem failed_write_ends_the_build_with_file_write_error :
  forall (env : @Environment Resume Exn) (resumePath : string)
         (o : BuildOptions) (file data : string) (x : Thrown),
    let result := run env [] (buildResume path core resumePath (Some o)) in
    In (EvWriteFileSync file data (Some x)) (fst result) ->
    snd result = Threw (OwnError (FILE_WRITE_ERROR file))
    /\ inferOutput path resumePath (chosenFormat o) (output o) = Returns file
    /\ (forall ev, In ev (fst result) -> isLaTeXEvent ev = false)
    /\ (forall level msg, ~ In (EvConsola level msg) (fst result)).
Proof.
  intros env resumePath o file data x result. subst result.
  unfold buildResume. cbv zeta. generalize (chosenFormat o). intros fmt.
  execute; intros Hin; find_event Hin; inversion Hin; subst;
    (split; [reflexivity|]); (split; [reflexivity|]);
    (split; [intros ev Hev; in_cases Hev|]);
    intros level msg Hev; find_event Hev.
Qed.

(** When the build returns, the text the renderer gave for the chosen
    format has been written, successfully, to the file [inferOutput] gives
    for that format. *)
Theorem returned_build_has_written_the_rendering :
  forall (env : @Environment Resume Exn) (resumePath : string)
         (o : BuildOptions),
    let result := run env [] (buildResume path core resumePath (Some o)) in
    snd result = Returned tt ->
    exists file resume data,
      inferOutput path resumePath (chosenFormat o) (output o) = Returns file
      /\ In (EvRender resume (chosenFormat o) (inr data)) (fst result)
      /\ In (EvWriteFileSync file data None) (fst result).
Proof.
  intros env resumePath o result. subst result.
  unfold buildResume. cbv zeta. generalize (chosenFormat o). intros fmt.
  execute; intros H; try discriminate H;
    eexists _, _, _; (split; [reflexivity|]); split; in_list.
Qed.

(** LaTeX is run only after the TeX file has been written successfully,
    and on that file: the engine gets the base name of the written file as
    its last argument ([xelatex] after [-halt-on-error], [tectonic] alone)
    and is run in the output directory, or in the directory of the file when
    no output directory is given. *)
Theorem latex_runs_on_the_file_that_was_written :
  forall (env : @Environment Resume Exn) (resumePath : string)
         (o : BuildOptions) (cmd : string) (arguments : list string)
         (dir : string) (r : ExecaError + ExecaResult),
    let result := run env [] (buildResume path core resumePath (Some o)) in
    In (EvExeca cmd arguments dir r) (fst result) ->
    exists texFile data,
      inferOutput path resumePath "latex" (output o) = Returns texFile
      /\ In (EvWriteFileSync texFile data None) (fst result)
      /\ ((cmd = "xelatex"
           /\ arguments = ["-halt-on-error"; path_basename path texFile])
          \/ (cmd = "tectonic"
              /\ arguments = [path_basename path texFile]))
      /\ dir = workingDirectory path (output o) texFile.
Proof.
  intros env resumePath o cmd arguments dir r result. subst result.
  unfold buildResume, workingDirectory. cbv zeta.
  generalize (chosenFormat o). intros fmt.
  destruct (String.eqb_spec fmt "latex") as [->|NE].
  - cbn [String.eqb Ascii.eqb Bool.eqb negb andb].
    execute; intros Hin; find_event Hin; inversion Hin; subst;
      eexists _, _; (split; [reflexivity|]); (split; [in_list|]);
      (split; [|reflexivity]);
      first [left; split; reflexivity | right; split; reflexivity].
  - destruct (String.eqb fmt "markdown") eqn:M; cbn [negb andb];
      execute; intros Hin; find_event Hin.
Qed.

(** How a run of LaTeX ends the build: when [execa] rejects, the build
    throws [LATEX_COMPILE_ERROR] with the message of the rejection, after
    logging what the engine wrote to its standard error at debug level; when
    [execa] resolves, the build returns, after logging success. *)
Theorem latex_failure_becomes_latex_compile_error :
  forall (env : @Environment Resume Exn) (resumePath : string)
         (o : BuildOptions) (cmd : string) (arguments : list string)
         (dir : string),
    let result := run env [] (buildResume path core resumePath (Some o)) in
    (forall failure,
        In (EvExeca cmd arguments dir (inl failure)) (fst result) ->
        snd result
          = Threw (OwnError (LATEX_COMPILE_ERROR (error_message failure)))
        /\ In (EvConsola consola_debug
                 (joinNonEmptyString core
                    ["stderr: "; toCodeBlock core (error_stderr failure)]))
              (fst result))
    /\ (forall finished,
          In (EvExeca cmd arguments dir (inr finished)) (fst result) ->
          snd result = Returned tt
          /\ In (EvConsola consola_success
                   "Generated resume PDF file successfully.")
                (fst result)).
Proof.
  intros env resumePath o cmd arguments dir result. subst result.
  unfold buildResume. cbv zeta. generalize (chosenFormat o). intros fmt.
  split; intros answer;
    execute; intros Hin; find_event Hin; inversion Hin; subst;
    (split; [reflexivity|in_list]).
Qed.

(** The output directory is made only when one is given (and not empty)
    and [existsSync] has just said it is not there.  When making it throws,
    the build ends with what was thrown, as it is. *)
Theorem output_directory_is_made_only_when_missing :
  forall (env : @Environment Resume Exn) (resumePath : string)
         (o : BuildOptions) (dir : string) (r : option Thrown),
    let result := run env [] (buildResume path core resumePath (Some o)) in
    In (EvMkdirSync dir r) (fst result) ->
    output o = Some dir
    /\ dir <> ""
    /\ In (EvExistsSync dir false) (fst result)
    /\ (forall e, r = Some e -> snd result = Threw e).
Proof.
  intros env resumePath o dir r result. subst result.
  unfold buildResume. cbv zeta. generalize (chosenFormat o). intros fmt.
  execute; intros Hin; find_event Hin; inversion Hin; subst;
    (split; [reflexivity|]); (split; [discriminate|]); (split; [in_list|]);
    intros thrown Hthrown;
    first [discriminate Hthrown | injection Hthrown as ->; reflexivity].
Qed.

(** [inferLaTeXCommand] looks for [xelatex] first and for [tectonic] only
    when [xelatex] is not there (a throw of [which.sync] counts as not there).
    With neither, it throws [LATEX_NOT_FOUND], also for a path whose
    extension is not accepted; with one of them and such a path it throws
    [INVALID_EXTNAME]; otherwise it returns the engine found, its arguments
    and its working directory. *)
Theorem inferLaTeXCommand_prefers_xelatex_and_checks_latex_first :
  forall (env : @Environment Resume Exn) (history : list Event)
         (resumePath : string) (outputDir : option string),
    let x := env_whichSync env history "xelatex" in
    let seen := (history ++ [EvWhichSync "xelatex" x])%list in
    let t := env_whichSync env seen "tectonic" in
    let result := run env history (inferLaTeXCommand path resumePath outputDir) in
    (truthy x = true -> fst result = seen)
    /\ (truthy x = false ->
          fst result = (seen ++ [EvWhichSync "tectonic" t])%list)
    /\ (truthy x = false -> truthy t = false ->
          snd result = Threw (OwnError LATEX_NOT_FOUND))
    /\ (truthy x = true \/ truthy t = true ->
          ~ Accepted resumePath ->
          snd result
          = Threw (OwnError (INVALID_EXTNAME (path_extname path resumePath))))
    /\ (forall texFile,
          inferOutput path resumePath "latex" outputDir = Returns texFile ->
          (truthy x = true ->
           snd result
           = Returned
               (mkLaTeXCommand "xelatex"
                  ["-halt-on-error"; path_basename path texFile]
                  (workingDirectory path outputDir texFile)))
          /\ (truthy x = false -> truthy t = true ->
               snd result
               = Returned
                   (mkLaTeXCommand "tectonic" [path_basename path texFile]
                      (workingDirectory path outputDir texFile)))).
Proof.
  intros env history resumePath outputDir x seen t result.
  subst result t seen x. unfold workingDirectory.
  split; [|split; [|split; [|split]]].
  - intros Hx. unfold_program. rewrite Hx. execute; reflexivity.
  - intros Hx. unfold_program. rewrite Hx. execute; reflexivity.
  - intros Hx Ht. unfold_program. rewrite Hx. unfold_program. now rewrite Ht.
  - intros Hxt N. unfold_program.
    rewrite (BuildPaths.inferOutput_not_accepted path resumePath _ _ N).
    destruct (truthy (env_whichSync env history "xelatex")) eqn:Hx;
      unfold_program; [reflexivity|].
    destruct Hxt as [Hxt|Ht]; [discriminate|]. now rewrite Ht.
  - intros texFile Htex. split.
    + intros Hx. unfold_program. rewrite Hx, Htex.
      now destruct outputDir as [[|c d]|].
    + intros Hx Ht. unfold_program. rewrite Hx. unfold_program.
      rewrite Ht, Htex. now destruct outputDir as [[|c d]|].
Qed.

End WithCollaborators.

Lemma latex_is_left_alone_witness :
  isLaTeXEvent
    (@EvConsola unit string consola_success
       "Generated resume markdown file successfully.") = false.
Proof.
  apply (latex_is_left_alone_for_markdown_and_without_pdf
           samplePath sampleCore obliging "resume.yaml"
           (mkBuildOptions (Some true) None None (Some "markdown"))).
  - left. reflexivity.
  - cbn. auto.
Defined.

Lemma unsupported_extension_witness :
  ~ Accepted "resume.txt"
  /\ fst (run obliging []
            (buildResume samplePath sampleCore "resume.txt"
               (Some defaultOptions)))
     = [EvReadResume "resume.txt" (Some true) (inr tt)]
  /\ snd (run obliging []
            (buildResume samplePath sampleCore "resume.txt"
               (Some defaultOptions)))
     = Threw (OwnError (INVALID_EXTNAME ".txt")).
Proof.
  assert (N : ~ Accepted "resume.txt").
  { intros A. apply BuildPaths.acceptedb_iff in A. discriminate A. }
  split; [exact N|].
  destruct (proj2 (proj2 (unsupported_extension_is_noticed_after_reading
                            samplePath sampleCore obliging "resume.txt"
                            defaultOptions N))
              (or_introl eq_refl))
    as [Hevents [Hreturned _]].
  split; [exact Hevents|exact (Hreturned tt eq_refl)].
Defined.

Lemma failed_write_witness :
  snd (run (barren tt) []
         (buildResume samplePath sampleCore "resume.yaml"
            (Some defaultOptions)))
  = Threw (OwnError (FILE_WRITE_ERROR "resume.tex")).
Proof.
  refine (proj1 (failed_write_ends_the_build_with_file_write_error
                   samplePath sampleCore (barren tt) "resume.yaml"
                   defaultOptions "resume.tex" "rendered"
                   (ForeignError tt) _)).
  cbn. auto.
Defined.

Lemma returned_build_witness :
  exists file resume data,
    inferOutput samplePath "resume.yaml" "markdown" None = Returns file
    /\ In (EvRender resume "markdown" (inr data))
          (fst (run obliging []
                  (buildResume samplePath sampleCore "resume.yaml"
                     (Some (mkBuildOptions None None None
                              (Some "markdown"))))))
    /\ In (EvWriteFileSync file data None)
          (fst (run obliging []
                  (buildResume samplePath sampleCore "resume.yaml"
                     (Some (mkBuildOptions None None None
                              (Some "markdown")))))).
Proof.
  exact (returned_build_has_written_the_rendering
           samplePath sampleCore obliging "resume.yaml"
           (mkBuildOptions None None None (Some "markdown")) eq_refl).
Defined.

Lemma latex_runs_witness :
  exists texFile data,
    inferOutput samplePath "resume.yaml" "latex" (Some "out") = Returns texFile
    /\ In (EvWriteFileSync texFile data None)
          (fst (run obliging []
                  (buildResume samplePath sampleCore "resume.yaml"
                     (Some (mkBuildOptions (Some true) None (Some "out")
                              None)))))
    /\ (("xelatex" = "xelatex"
         /\ ["-halt-on-error"; "resume.tex"]
            = ["-halt-on-error"; path_basename samplePath texFile])
        \/ ("xelatex" = "tectonic"
            /\ ["-halt-on-error"; "resume.tex"]
               = [path_basename samplePath texFile]))
    /\ "/work/out" = workingDirectory samplePath (Some "out") texFile.
Proof.
  refine (latex_runs_on_the_file_that_was_written
            samplePath sampleCore obliging "resume.yaml"
            (mkBuildOptions (Some true) None (Some "out") None)
            "xelatex" ["-halt-on-error"; "resume.tex"] "/work/out"
            (inr (mkExecaResult "ok")) _).
  cbn. auto 10.
Defined.

Lemma latex_failure_witness :
  snd (run (obligingWith (inl (mkExecaError None (Some "!") "exit 1"))) []
         (buildResume samplePath sampleCore "resume.yaml"
            (Some defaultOptions)))
  = Threw (OwnError (LATEX_COMPILE_ERROR "exit 1")).
Proof.
  refine (proj1 (proj1 (latex_failure_becomes_latex_compile_error
                          samplePath sampleCore
                          (obligingWith
                             (inl (mkExecaError None (Some "!") "exit 1")))
                          "resume.yaml" defaultOptions
                          "xelatex" ["-halt-on-error"; "resume.tex"]
                          "/work")
                   (mkExecaError None (Some "!") "exit 1") _)).
  cbn. auto 10.
Defined.

Lemma output_directory_witness :
  output (mkBuildOptions None None (Some "out") (Some "markdown")) = Some "out"
  /\ "out" <> ""
  /\ In (EvExistsSync "out" false)
        (fst (run obliging []
                (buildResume samplePath sampleCore "resume.yaml"
                   (Some (mkBuildOptions None None (Some "out")
                            (Some "markdown"))))))
  /\ (forall e, @None (@Thrown string) = Some e ->
                snd (run obliging []
                       (buildResume samplePath sampleCore "resume.yaml"
                          (Some (mkBuildOptions None None (Some "out")
                                   (Some "markdown")))))
                = Threw e).
Proof.
  refine (output_directory_is_made_only_when_missing
            samplePath sampleCore obliging "resume.yaml"
            (mkBuildOptions None None (Some "out") (Some "markdown"))
            "out" None _).
  cbn. auto 10.
Defined.

Lemma inferLaTeXCommand_witness :
  snd (run obliging [] (inferLaTeXCommand samplePath "resume.yml" None))
  = Returned (mkLaTeXCommand "xelatex" ["-halt-on-error"; "resume.tex"]
                             "/work").
Proof.
  exact (proj1 (proj2 (proj2 (proj2 (proj2
           (inferLaTeXCommand_prefers_xelatex_and_checks_latex_first
              samplePath obliging [] "resume.yml" None))))
           "resume.tex" eq_refl) eq_refl).
Defined.

Lemma buildResume_refuses_unknown_format_witness :
  run (barren tt) []
      (buildResume samplePath sampleCore "resume.yaml"
         (Some (mkBuildOptions (Some true) (Some true) None (Some "pdf"))))
  = ([], Threw (OwnError (INVALID_FORMAT "pdf"))).
Proof.
  refine (proj1 (buildResume_refuses_unknown_format_before_any_effect
                   samplePath sampleCore (barren tt) "resume.yaml" "pdf"
                   (Some true) (Some true) None _ _ _));
    discriminate.
Defined.

End BuildEffects.
